(** * executorjs: the workflow engine, its context and its observers

    A shallow embedding of the TypeScript sources

      - [src/core/WorkflowContext.ts]
      - [src/core/WorkflowStep.ts], [src/core/WorkflowObserver.ts]
      - [src/core/WorkflowEngine.ts]
      - [src/steps/BasicStep.ts], [src/steps/ConditionalStep.ts]
      - [src/observers/PerformanceObserver.ts]
      - [WorkflowFactory.createWorkflow]

    JavaScript objects that are shared by reference (the metadata record,
    the objects hanging off it, the objects a step throws) live in an
    explicit heap; the context of a run, the heap and the clock form the
    environment that user code (steps, predicates, observer callbacks)
    reads and writes.  Exceptions are explicit completions, and the engine
    is written in a small state and exception monad so that every
    [try]/[catch] of the source is visible, and so is what escapes them. *)

From stdpp Require Import gmap strings list pretty.

Open Scope Z_scope.

(** ** JavaScript values *)

Definition loc := nat.

(** The values that can be stored: primitives, and references to plain
    objects in the heap (objects made by an object literal, with
    [Object.prototype] as their prototype and data properties of their
    own).  Numbers are the integral ones that a double holds. *)
Inductive JsValue : Type :=
  | VUndefined
  | VNull
  | VBool (b : bool)
  | VNumber (n : Z)
  | VString (s : string)
  | VRef (l : loc).

#[global] Instance JsValue_eq_dec : EqDecision JsValue.
Proof. solve_decision. Defined.

(** What a step or a callback can throw ([error: any]): an instance of
    [Error], identified by its [message], or any of the values above.
    Instances of [Error] are not stored in the heap. *)
Inductive Failure : Type :=
  | VError (message : string)
  | VPlain (v : JsValue).

Coercion VPlain : JsValue >-> Failure.

#[global] Instance Failure_eq_dec : EqDecision Failure.
Proof. solve_decision. Defined.

(** How a call ends: normally, or by throwing (for an [async] function:
    the promise resolves, or rejects). *)
Inductive Completion (A : Type) : Type :=
  | Normal (a : A)
  | Throw (e : Failure).
Arguments Normal {A} a.
Arguments Throw {A} e.

(** The error the language itself throws for a conversion or an
    assignment that cannot be done; its message is the JavaScript
    engine's wording and stands for itself. *)
Definition TypeError : Failure := VError "TypeError".

(** ** The heap of plain objects *)

Abbreviation Obj := (gmap string JsValue).
Abbreviation Heap := (gmap loc Obj).

(** [o[k]] for the object at [l] and a key that [Object.prototype] does
    not have; a missing property reads [undefined]. *)
Definition get_prop (h : Heap) (l : loc) (k : string) : JsValue :=
  default VUndefined (h !! l ≫= (.!! k)).

(** The object at [l] gets [v] as its own property [k]. *)
Definition set_prop (h : Heap) (l : loc) (k : string) (v : JsValue) : Heap :=
  <[l := <[k := v]> (default ∅ (h !! l))]> h.

(** Whether the object at [l] has a property [k] of its own. *)
Definition has_own (h : Heap) (l : loc) (k : string) : bool :=
  bool_decide (is_Some (default ∅ (h !! l) !! k)).

(** [target[k] = n] in strict code, for a number [n].  On [undefined] and
    [null] the assignment throws.  The key ["__proto__"] is an accessor
    of [Object.prototype]: unless the object has a property of that name
    of its own, the assignment calls the setter, which ignores a number,
    on an object and on a primitive alike.  Every other key becomes, or
    updates, a property of the object's own, and cannot be created on a
    primitive. *)
Definition assign_number (h : Heap) (target : JsValue) (k : string) (n : Z)
    : Completion Heap :=
  match target with
  | VUndefined | VNull => Throw TypeError
  | VRef l =>
      if bool_decide (k = "__proto__") && negb (has_own h l k) then Normal h
      else Normal (set_prop h l k (VNumber n))
  | VBool _ | VNumber _ | VString _ =>
      if bool_decide (k = "__proto__") then Normal h else Throw TypeError
  end.

(** An object literal: allocated at an address not in use. *)
Definition alloc (h : Heap) (o : Obj) : loc * Heap :=
  let l := fresh (dom h) in (l, <[l := o]> h).

(** ** Conversions *)

(** Whether the decimal [m] denotes the double [x], for [x] at least
    [2^53]: [x] is the double nearest to [m], a tie going to the even
    significand. *)
Definition roundsTo (x m : Z) : bool :=
  let e := Z.log2 x - 52 in
  let f := Z.shiftr x e in
  let above := 2 ^ e in
  let below := if f =? 2 ^ 52 then 2 ^ (e - 1) else 2 ^ e in
  if m =? x then true
  else if x <? m
       then (if Z.even f then 2 * (m - x) <=? above else 2 * (m - x) <? above)
       else (if Z.even f then 2 * (x - m) <=? below else 2 * (x - m) <? below).

(** The decimal with the fewest significant digits that denotes [x], the
    nearest to [x] among those. *)
Definition shortest (x : Z) : Z :=
  let len := Z.of_nat (String.length (pretty x)) in
  let candidate (k : Z) : option Z :=
    if len <? k then None else
    let scale := 10 ^ (len - k) in
    let lo := x / scale * scale in
    let hi := lo + scale in
    match roundsTo x lo, roundsTo x hi with
    | true, true =>
        Some (if x - lo <? hi - x then lo
              else if hi - x <? x - lo then hi
              else if Z.even (lo / scale) then lo else hi)
    | true, false => Some lo
    | false, true => Some hi
    | false, false => None
    end in
  default x (head (omap candidate (seqZ 1 17))).

(** The digits of a decimal without its trailing zeros. *)
Fixpoint significant (digits : string) : string :=
  match digits with
  | EmptyString => EmptyString
  | String d rest =>
      match significant rest with
      | EmptyString =>
          if String.eqb (String d EmptyString) "0" then EmptyString
          else String d EmptyString
      | rest' => String d rest'
      end
  end.

Definition exponential (m : Z) : string :=
  let digits := pretty m in
  let e := pretty (Z.of_nat (String.length digits) - 1) in
  match significant digits with
  | EmptyString => digits
  | String d EmptyString => String d ("e+" +:+ e)
  | String d rest => String d ("." +:+ rest +:+ "e+" +:+ e)
  end.

(** [Number.prototype.toString] on an integral number: its digits up to
    [2^53]; beyond, the shortest decimal that denotes it, written out
    below [10^21] and in exponent notation from there on. *)
Definition NumberToString (n : Z) : string :=
  if Z.abs n <? 2 ^ 53 then pretty n
  else
    let m := shortest (Z.abs n) in
    (if n <? 0 then "-" else EmptyString) +:+
    (if m <? 10 ^ 21 then pretty m else exponential m).

(** The string [String(v)] gives, when it gives one. *)
Definition text (v : JsValue) : string :=
  match v with
  | VUndefined => "undefined"
  | VNull => "null"
  | VBool true => "true"
  | VBool false => "false"
  | VNumber n => NumberToString n
  | VString s => s
  | VRef _ => "[object Object]"
  end.

(** [String(v)].  For an object the conversion calls its [toString]: the
    one of [Object.prototype], unless the object has a [toString]
    property of its own.  The properties of the objects of this heap are
    not functions, so that an own [toString] is skipped as not callable,
    and [valueOf], of its own or inherited, gives no primitive either:
    the conversion throws. *)
Definition ToString (h : Heap) (v : JsValue) : Completion string :=
  match v with
  | VRef l => if has_own h l "toString" then Throw TypeError else Normal (text v)
  | _ => Normal (text v)
  end.

(** Truthiness, as tested by [if (v)] and [!v]. *)
Definition ToBoolean (v : JsValue) : bool :=
  match v with
  | VUndefined | VNull => false
  | VBool b => b
  | VNumber n => negb (n =? 0)
  | VString s => negb (String.eqb s EmptyString)
  | VRef _ => true
  end.

(** ** The world *)

(** What is outside the context object: the heap, the wall clock read by
    [new Date()] and [Date.now()] (milliseconds), and the state of the
    identifier generator. *)
Record World : Type := mkWorld {
  heap : Heap;
  clock : Z;
  entropy : nat
}.

Definition set_heap (h : Heap) (w : World) : World :=
  {| heap := h; clock := clock w; entropy := entropy w |}.

(** The [uuid] package is an external dependency: [v4()] is abstracted as
    a rendering of the generator's state, which advances at each call. *)
Definition uuidv4 (w : World) : string * World :=
  ("uuid-" +:+ pretty (entropy w),
   {| heap := heap w; clock := clock w; entropy := S (entropy w) |}).

(** ** [WorkflowContext.ts] *)

Module WorkflowError.
Record t : Type := mk {
  step : string;
  message : string;
  details : Failure;
  timestamp : Z
}.
End WorkflowError.

Module WorkflowContextOptions.
Record t : Type := mk {
  workflowId : option string;
  workflowName : string;
  input : JsValue;
  result : JsValue;
  metadata : option loc
}.
End WorkflowContextOptions.

Module WorkflowContext.
(** The fields hold values of their declared types: [errors] is an
    ordinary array of records, to which [push] appends (user code may
    replace it by another array, not by something that is no array),
    [metadata] is an object of the heap, the dates are instants in
    milliseconds. *)
Record t : Type := mk {
  workflowId : string;
  workflowName : string;
  input : JsValue;
  result : JsValue;
  errors : list WorkflowError.t;
  metadata : loc;
  currentStepName : option string;
  startTime : Z;
  endTime : option Z
}.

(** [constructor(options)]: [options.workflowId ?? uuidv4()],
    [options.metadata ?? {}], [new Date()]. *)
Definition new (options : WorkflowContextOptions.t) (w : World) : t * World :=
  let '(id, w) :=
    match WorkflowContextOptions.workflowId options with
    | Some id => (id, w)
    | None => uuidv4 w
    end in
  let '(md, w) :=
    match WorkflowContextOptions.metadata options with
    | Some l => (l, w)
    | None => let '(l, h) := alloc (heap w) ∅ in (l, set_heap h w)
    end in
  ({| workflowId := id;
      workflowName := WorkflowContextOptions.workflowName options;
      input := WorkflowContextOptions.input options;
      result := WorkflowContextOptions.result options;
      errors := [];
      metadata := md;
      currentStepName := None;
      startTime := clock w;
      endTime := None |}, w).

Definition set_errors (es : list WorkflowError.t) (c : t) : t :=
  {| workflowId := workflowId c; workflowName := workflowName c;
     input := input c; result := result c; errors := es;
     metadata := metadata c; currentStepName := currentStepName c;
     startTime := startTime c; endTime := endTime c |}.

Definition set_currentStepName (n : option string) (c : t) : t :=
  {| workflowId := workflowId c; workflowName := workflowName c;
     input := input c; result := result c; errors := errors c;
     metadata := metadata c; currentStepName := n;
     startTime := startTime c; endTime := endTime c |}.

Definition set_endTime (e : option Z) (c : t) : t :=
  {| workflowId := workflowId c; workflowName := workflowName c;
     input := input c; result := result c; errors := errors c;
     metadata := metadata c; currentStepName := currentStepName c;
     startTime := startTime c; endTime := e |}.

(** [error instanceof Error ? error.message : String(error)], in heap
    [h]. *)
Definition messageOf (h : Heap) (error : Failure) : Completion string :=
  match error with
  | VError m => Normal m
  | VPlain v => ToString h v
  end.

(** [addError(step, error)], called at instant [now] in heap [h].  The
    record is built first, its [message] before its [timestamp]: when
    the conversion of [error] to a string throws, nothing is pushed and
    the call throws. *)
Definition addError (step : string) (error : Failure) (now : Z) (h : Heap) (c : t)
    : Completion t :=
  match messageOf h error with
  | Normal message =>
      Normal
        (set_errors
           (errors c ++
            [ {| WorkflowError.step := step;
                 WorkflowError.message := message;
                 WorkflowError.details := error;
                 WorkflowError.timestamp := now |} ]) c)
  | Throw e => Throw e
  end.

(** [complete()], called at instant [now]. *)
Definition complete (now : Z) (c : t) : t := set_endTime (Some now) c.

(** [get durationMs()]. *)
Definition durationMs (c : t) : option Z :=
  match endTime c with
  | None => None
  | Some e => Some (e - startTime c)
  end.

(** [get successful()]. *)
Definition successful (c : t) : bool :=
  bool_decide (length (errors c) = 0%nat).
End WorkflowContext.

(** ** Environments and the engine monad *)

(** What user code can reach: the context passed to it by reference, and
    the world. *)
Record Env : Type := mkEnv {
  ctx : WorkflowContext.t;
  world : World
}.

(** An awaited call into user code: it ends with a completion and leaves
    an environment behind, also when it throws. *)
Definition Async (A : Type) : Type := Env -> Completion A * Env.

(** ** [WorkflowStep.ts], [BasicStep.ts], [ConditionalStep.ts] *)

Module WorkflowStep.
Record t : Type := mk {
  name : string;
  execute : Async unit
}.
End WorkflowStep.

Module BasicStep.
(** [new BasicStep(name, executor)]; [execute] awaits the executor. *)
Definition new (name : string) (executor : Async unit) : WorkflowStep.t :=
  {| WorkflowStep.name := name;
     WorkflowStep.execute := fun env => executor env |}.
End BasicStep.

Module ConditionalStep.
Definition execute (condition : Async bool) (trueStep : WorkflowStep.t)
    (falseStep : option WorkflowStep.t) : Async unit :=
  fun env =>
    match condition env with
    | (Throw e, env) => (Throw e, env)
    | (Normal result, env) =>
        if result then WorkflowStep.execute trueStep env
        else match falseStep with
             | Some falseStep => WorkflowStep.execute falseStep env
             | None => (Normal tt, env)
             end
    end.

(** [new ConditionalStep(name, condition, trueStep, falseStep?)]. *)
Definition new (name : string) (condition : Async bool)
    (trueStep : WorkflowStep.t) (falseStep : option WorkflowStep.t)
    : WorkflowStep.t :=
  {| WorkflowStep.name := name;
     WorkflowStep.execute := execute condition trueStep falseStep |}.
End ConditionalStep.

(** ** [WorkflowObserver.ts] *)

Module WorkflowObserver.
(** Five callbacks, each of which may be absent. *)
Record t : Type := mk {
  onStepStart : option (string -> Async unit);
  onStepComplete : option (string -> Async unit);
  onStepError : option (string -> Failure -> Async unit);
  onWorkflowComplete : option (Async unit);
  onWorkflowStart : option (Async unit)
}.
End WorkflowObserver.

(** An event name together with the arguments the engine passes for it
    (the context, always last, is the environment's). *)
Inductive Notification : Type :=
  | WorkflowStart
  | StepStart (stepName : string)
  | StepComplete (stepName : string)
  | StepError (stepName : string) (error : Failure)
  | WorkflowComplete.

Definition eventName (n : Notification) : string :=
  match n with
  | WorkflowStart => "onWorkflowStart"
  | StepStart _ => "onStepStart"
  | StepComplete _ => "onStepComplete"
  | StepError _ _ => "onStepError"
  | WorkflowComplete => "onWorkflowComplete"
  end.

(** [observer[eventName]], when it is a function, applied to the
    arguments. *)
Definition method (observer : WorkflowObserver.t) (n : Notification)
    : option (Async unit) :=
  match n with
  | WorkflowStart => WorkflowObserver.onWorkflowStart observer
  | StepStart s => (fun f => f s) <$> WorkflowObserver.onStepStart observer
  | StepComplete s => (fun f => f s) <$> WorkflowObserver.onStepComplete observer
  | StepError s e => (fun f => f s e) <$> WorkflowObserver.onStepError observer
  | WorkflowComplete => WorkflowObserver.onWorkflowComplete observer
  end.

(** ** The engine's machine state *)

(** What happened, in order: which observer callback was invoked with
    which notification, and which step's [execute] was invoked.  Ghost
    state: user code cannot read it. *)
Inductive TraceEvent : Type :=
  | Notified (observer : nat) (n : Notification)
  | Executed (stepName : string).

Record State : Type := mkState {
  env : Env;
  trace : list TraceEvent;
  console : list (string * Failure)   (* lines written by [console.error] *)
}.

Definition M (A : Type) : Type := State -> Completion A * State.

#[global] Instance M_ret : MRet M := fun A a s => (Normal a, s).
#[global] Instance M_bind : MBind M := fun A B f m s =>
  match m s with
  | (Normal a, s) => f a s
  | (Throw e, s) => (Throw e, s)
  end.

(** [try { body } catch (error) { handler }]. *)
Definition try_catch {A} (body : M A) (handler : Failure -> M A) : M A :=
  fun s =>
    match body s with
    | (Normal a, s) => (Normal a, s)
    | (Throw e, s) => handler e s
    end.

(** [await f(context)]. *)
Definition call {A} (f : Async A) : M A :=
  fun s =>
    let '(r, env) := f (env s) in
    (r, {| env := env; trace := trace s; console := console s |}).

Definition record (ev : TraceEvent) : M unit :=
  fun s => (Normal tt,
            {| env := env s; trace := trace s ++ [ev]; console := console s |}).

Definition console_error (msg : string) (error : Failure) : M unit :=
  fun s => (Normal tt,
            {| env := env s; trace := trace s;
               console := console s ++ [(msg, error)] |}).

(** A synchronous update of the context object that cannot throw. *)
Definition modify_ctx (f : Z -> WorkflowContext.t -> WorkflowContext.t) : M unit :=
  fun s =>
    let e := env s in
    (Normal tt,
     {| env := {| ctx := f (clock (world e)) (ctx e); world := world e |};
        trace := trace s; console := console s |}).

(** A synchronous method call on the context object: when it throws, the
    context is as it was. *)
Definition invoke_ctx
    (f : Z -> Heap -> WorkflowContext.t -> Completion WorkflowContext.t) : M unit :=
  fun s =>
    let e := env s in
    match f (clock (world e)) (heap (world e)) (ctx e) with
    | Normal c =>
        (Normal tt,
         {| env := {| ctx := c; world := world e |};
            trace := trace s; console := console s |})
    | Throw error => (Throw error, s)
    end.

(** The context object the run works on: what [execute] returns. *)
Definition the_context : M WorkflowContext.t :=
  fun s => (Normal (ctx (env s)), s).

(** ** [WorkflowEngine.ts] *)

Module WorkflowEngineOptions.
(** [Omit<WorkflowContextOptions, 'input'>] extended with the two
    engine switches. *)
Record t : Type := mk {
  workflowId : option string;
  workflowName : string;
  result : JsValue;
  metadata : option loc;
  continueOnError : option bool;
  maxConcurrency : option Z
}.
End WorkflowEngineOptions.

Module WorkflowEngine.
Record t : Type := mk {
  steps : list WorkflowStep.t;
  observers : list WorkflowObserver.t;
  options : WorkflowEngineOptions.t
}.

(** [constructor(options)]: the two switches get their defaults. *)
Definition new (options : WorkflowEngineOptions.t) : t :=
  {| steps := [];
     observers := [];
     options :=
       {| WorkflowEngineOptions.workflowId := WorkflowEngineOptions.workflowId options;
          WorkflowEngineOptions.workflowName := WorkflowEngineOptions.workflowName options;
          WorkflowEngineOptions.result := WorkflowEngineOptions.result options;
          WorkflowEngineOptions.metadata := WorkflowEngineOptions.metadata options;
          WorkflowEngineOptions.continueOnError :=
            Some (default false (WorkflowEngineOptions.continueOnError options));
          WorkflowEngineOptions.maxConcurrency :=
            Some (default 1 (WorkflowEngineOptions.maxConcurrency options)) |} |}.

Definition addSteps (new_steps : list WorkflowStep.t) (this : t) : t :=
  {| steps := steps this ++ new_steps;
     observers := observers this;
     options := options this |}.

Definition addStep (step : WorkflowStep.t) (this : t) : t :=
  addSteps [step] this.

Definition addObservers (new_observers : list WorkflowObserver.t) (this : t) : t :=
  {| steps := steps this;
     observers := observers this ++ new_observers;
     options := options this |}.

Definition addObserver (observer : WorkflowObserver.t) (this : t) : t :=
  addObservers [observer] this.

(** The body of [notifyObservers]'s loop for the observer at position
    [i]: the callback, when there is one, inside its own [try]. *)
Definition notifyObserver (i : nat) (observer : WorkflowObserver.t)
    (n : Notification) : M unit :=
  match method observer n with
  | Some m =>
      try_catch
        (record (Notified i n);; call m)
        (fun error =>
           console_error ("Error in workflow observer (" +:+ eventName n +:+ ")") error)
  | None => mret tt
  end.

Fixpoint notifyObservers_from (i : nat) (observers : list WorkflowObserver.t)
    (n : Notification) : M unit :=
  match observers with
  | [] => mret tt
  | observer :: rest =>
      notifyObserver i observer n;;
      notifyObservers_from (S i) rest n
  end.

(** [notifyObservers(eventName, ...args)]. *)
Definition notifyObservers (this : t) (n : Notification) : M unit :=
  notifyObservers_from 0 (observers this) n.

(** [this.options.continueOnError], read as a condition. *)
Definition continueOnError (this : t) : bool :=
  default false (WorkflowEngineOptions.continueOnError (options this)).

(** The [try] block of the step loop. *)
Definition attempt (this : t) (step : WorkflowStep.t) : M unit :=
  notifyObservers this (StepStart (WorkflowStep.name step));;
  record (Executed (WorkflowStep.name step));;
  call (WorkflowStep.execute step);;
  notifyObservers this (StepComplete (WorkflowStep.name step)).

(** The [catch] block; its result tells whether the loop breaks.  It is
    not itself inside a [try]: what [context.addError] throws leaves the
    loop and [execute]. *)
Definition recover (this : t) (step : WorkflowStep.t) (error : Failure) : M bool :=
  invoke_ctx (WorkflowContext.addError (WorkflowStep.name step) error);;
  notifyObservers this (StepError (WorkflowStep.name step) error);;
  mret (negb (continueOnError this)).

(** One iteration of [for (const step of this.steps)]. *)
Definition iteration (this : t) (step : WorkflowStep.t) : M bool :=
  modify_ctx (fun _ =>
    WorkflowContext.set_currentStepName (Some (WorkflowStep.name step)));;
  try_catch (attempt this step;; mret false) (recover this step).

Fixpoint loop (this : t) (steps : list WorkflowStep.t) : M unit :=
  match steps with
  | [] => mret tt
  | step :: rest =>
      break ← iteration this step;
      if (break : bool) then mret tt else loop this rest
  end.

(** Everything [execute] does once the context exists. *)
Definition run (this : t) : M WorkflowContext.t :=
  notifyObservers this WorkflowStart;;
  loop this (steps this);;
  modify_ctx WorkflowContext.complete;;
  notifyObservers this WorkflowComplete;;
  the_context.

(** [{ ...this.options, input }]. *)
Definition contextOptions (this : t) (input : JsValue) : WorkflowContextOptions.t :=
  {| WorkflowContextOptions.workflowId := WorkflowEngineOptions.workflowId (options this);
     WorkflowContextOptions.workflowName := WorkflowEngineOptions.workflowName (options this);
     WorkflowContextOptions.input := input;
     WorkflowContextOptions.result := WorkflowEngineOptions.result (options this);
     WorkflowContextOptions.metadata := WorkflowEngineOptions.metadata (options this) |}.

(** The machine state in which a run starts. *)
Definition start (this : t) (input : JsValue) (w : World) : State :=
  let '(context, w) := WorkflowContext.new (contextOptions this input) w in
  {| env := {| ctx := context; world := w |}; trace := []; console := [] |}.

(** [execute(input)]. *)
Definition execute (this : t) (input : JsValue) (w : World)
    : Completion WorkflowContext.t * State :=
  run this (start this input w).
End WorkflowEngine.

(** ** [PerformanceObserver.ts] *)

Module PerformanceObserver.
(** The private field [stepStartTimes : Record<string, number>].  Its
    keys hold a colon, so that none is a property of
    [Object.prototype]. *)
Record t : Type := mk {
  stepStartTimes : gmap string Z
}.

Definition new : t := {| stepStartTimes := ∅ |}.

(** The template [`${context.workflowId}:${stepName}`]. *)
Definition key (context : WorkflowContext.t) (stepName : string) : string :=
  WorkflowContext.workflowId context +:+ ":" +:+ stepName.

(** [!startTime] for a [number | undefined]. *)
Definition unset (startTime : option Z) : bool :=
  match startTime with
  | None => true
  | Some n => n =? 0
  end.

(** [recordStepDuration(stepName, duration, context)].  The object
    literal [{ steps: {} }] allocates the inner object, then the outer
    one.  [context.metadata.performance.steps] reads [undefined] off a
    primitive and off an object without that property; the assignment to
    its [stepName] property then does what [assign_number] says. *)
Definition recordStepDuration (stepName : string) (duration : Z) : Async unit :=
  fun env =>
    let md := WorkflowContext.metadata (ctx env) in
    let h := heap (world env) in
    let h :=
      if negb (ToBoolean (get_prop h md "performance")) then
        let '(s, h) := alloc h ∅ in
        let '(p, h) := alloc h {[ "steps" := VRef s ]} in
        set_prop h md "performance" (VRef p)
      else h in
    let env := {| ctx := ctx env; world := set_heap h (world env) |} in
    let steps :=
      match get_prop h md "performance" with
      | VRef p => get_prop h p "steps"
      | _ => VUndefined
      end in
    match assign_number h steps stepName duration with
    | Normal h => (Normal tt, {| ctx := ctx env; world := set_heap h (world env) |})
    | Throw e => (Throw e, env)
    end.

Definition onStepStart (this : t) (stepName : string) (env : Env)
    : Completion unit * (t * Env) :=
  (Normal tt,
   ({| stepStartTimes :=
         <[key (ctx env) stepName := clock (world env)]> (stepStartTimes this) |},
    env)).

Definition onStepComplete (this : t) (stepName : string) (env : Env)
    : Completion unit * (t * Env) :=
  let startTime := stepStartTimes this !! key (ctx env) stepName in
  if unset startTime then (Normal tt, (this, env))
  else
    let duration := clock (world env) - default 0 startTime in
    match recordStepDuration stepName duration env with
    | (Throw e, env) => (Throw e, (this, env))
    | (Normal _, env) =>
        (Normal tt,
         ({| stepStartTimes := delete (key (ctx env) stepName) (stepStartTimes this) |},
          env))
    end.

Definition onStepError (this : t) (stepName : string) (error : Failure) (env : Env)
    : Completion unit * (t * Env) :=
  onStepComplete this stepName env.
End PerformanceObserver.

(** ** Vocabulary for the statements *)

(** The notifications a list of observers receives for [n], the first
    observer sitting at position [i]: one per observer that has the
    callback, in registration order. *)
Fixpoint fired_from (i : nat) (observers : list WorkflowObserver.t)
    (n : Notification) : list TraceEvent :=
  match observers with
  | [] => []
  | observer :: rest =>
      match method observer n with
      | Some _ => [Notified i n]
      | None => []
      end ++ fired_from (S i) rest n
  end.

Definition fired (this : WorkflowEngine.t) (n : Notification) : list TraceEvent :=
  fired_from 0 (WorkflowEngine.observers this) n.

(** The step an event of the trace is about, if any. *)
Definition stepOf (ev : TraceEvent) : option string :=
  match ev with
  | Executed s => Some s
  | Notified _ (StepStart s) => Some s
  | Notified _ (StepComplete s) => Some s
  | Notified _ (StepError s _) => Some s
  | Notified _ _ => None
  end.

(** The steps whose [execute] was invoked, in order. *)
Definition executed (tr : list TraceEvent) : list string :=
  omap (fun ev => match ev with Executed s => Some s | _ => None end) tr.

(** The state once the workflow-start notifications are done. *)
Definition started (this : WorkflowEngine.t) (input : JsValue) (w : World) : State :=
  snd (WorkflowEngine.notifyObservers this WorkflowStart
         (WorkflowEngine.start this input w)).

(** The state in which [step.execute(context)] is invoked when the loop
    reaches [step] in state [s]. *)
Definition entering (this : WorkflowEngine.t) (step : WorkflowStep.t) (s : State) : State :=
  snd ((modify_ctx (fun _ =>
          WorkflowContext.set_currentStepName (Some (WorkflowStep.name step)));;
        WorkflowEngine.notifyObservers this (StepStart (WorkflowStep.name step));;
        record (Executed (WorkflowStep.name step))) s).

(** How [step.execute(context)] ends there, and the state it leaves. *)
Definition outcome (this : WorkflowEngine.t) (step : WorkflowStep.t) (s : State)
    : Completion unit :=
  fst (call (WorkflowStep.execute step) (entering this step s)).

Definition settled (this : WorkflowEngine.t) (step : WorkflowStep.t) (s : State) : State :=
  snd (call (WorkflowStep.execute step) (entering this step s)).

(** The state after [context.complete()] and the workflow-complete
    notifications. *)
Definition finished (this : WorkflowEngine.t) (s : State) : State :=
  snd (WorkflowEngine.notifyObservers this WorkflowComplete
         (snd (modify_ctx WorkflowContext.complete s))).

(** How [execute] ends once its loop has ended with [r]: when the loop
    threw, so does [execute], there and then. *)
Definition conclude (this : WorkflowEngine.t) (r : Completion unit * State)
    : Completion WorkflowContext.t * State :=
  match r with
  | (Normal _, s) => (Normal (ctx (env (finished this s))), finished this s)
  | (Throw e, s) => (Throw e, s)
  end.

(** The error records of the context in a machine state. *)
Definition errors_of (s : State) : list WorkflowError.t :=
  WorkflowContext.errors (ctx (env s)).

(** The step a notification is about, if any. *)
Definition notificationStep (n : Notification) : option string :=
  match n with
  | StepStart s | StepComplete s | StepError s _ => Some s
  | WorkflowStart | WorkflowComplete => None
  end.

(** The state after the iterations for the steps [done], one after the
    other. *)
Definition after (this : WorkflowEngine.t) (done : list WorkflowStep.t) (s : State) : State :=
  fold_left (fun s step => snd (WorkflowEngine.iteration this step s)) done s.

(** The loop gets through the steps [done] without a [break], and so
    reaches whatever step comes next. *)
Fixpoint unbroken (this : WorkflowEngine.t) (done : list WorkflowStep.t) (s : State)
    : Prop :=
  match done with
  | [] => True
  | step :: rest =>
      fst (WorkflowEngine.iteration this step s) = Normal false /\
      unbroken this rest (snd (WorkflowEngine.iteration this step s))
  end.

(** A failure that has a message in heap [h]: an [Error], or a value
    whose conversion to a string does not throw. *)
Definition convertible (h : Heap) (error : Failure) : bool :=
  match WorkflowContext.messageOf h error with
  | Normal _ => true
  | Throw _ => false
  end.

(** The record [addError] appends for a failure that has a message; the
    message does not depend on the heap. *)
Definition errorRecord (step : string) (error : Failure) (now : Z) : WorkflowError.t :=
  {| WorkflowError.step := step;
     WorkflowError.message :=
       match error with
       | VError m => m
       | VPlain v => text v
       end;
     WorkflowError.details := error;
     WorkflowError.timestamp := now |}.

(** The machine state once [addError] has recorded [error] under
    [name]. *)
Definition noted (name : string) (error : Failure) (s : State) : State :=
  {| env :=
       {| ctx :=
            WorkflowContext.set_errors
              (WorkflowContext.errors (ctx (env s)) ++
               [errorRecord name error (clock (world (env s)))])
              (ctx (env s));
          world := world (env s) |};
     trace := trace s;
     console := console s |}.

(** User code that leaves a field of the context as it found it. *)
Definition preserves {A B} (field : WorkflowContext.t -> B) (f : Async A) : Prop :=
  forall e, field (ctx (snd (f e))) = field (ctx e).

Definition observer_preserves {B} (field : WorkflowContext.t -> B)
    (observer : WorkflowObserver.t) : Prop :=
  forall n m, method observer n = Some m -> preserves field m.

(** The fields of the context that are the engine's to write. *)
Definition engine_fields (c : WorkflowContext.t)
    : list WorkflowError.t * option string * option Z :=
  (WorkflowContext.errors c, WorkflowContext.currentStepName c, WorkflowContext.endTime c).

(** The steps and the observers of an engine leave those fields alone. *)
Definition respected (this : WorkflowEngine.t) : Prop :=
  Forall (fun step => preserves engine_fields (WorkflowStep.execute step))
         (WorkflowEngine.steps this) /\
  Forall (observer_preserves engine_fields) (WorkflowEngine.observers this).

(** Two callbacks with the same effect on the environment; they may end
    differently (one may throw where the other returns). *)
Definition same_effect (m m' : Async unit) : Prop :=
  forall e, snd (m e) = snd (m' e).

Definition similar (o o' : WorkflowObserver.t) : Prop :=
  forall n, option_Forall2 same_effect (method o n) (method o' n).

(** The callback that does what [m] does and then returns normally. *)
Definition calm (m : Async unit) : Async unit :=
  fun e => (Normal tt, snd (m e)).

Definition calmed (o : WorkflowObserver.t) : WorkflowObserver.t :=
  {| WorkflowObserver.onStepStart :=
       (fun f s => calm (f s)) <$> WorkflowObserver.onStepStart o;
     WorkflowObserver.onStepComplete :=
       (fun f s => calm (f s)) <$> WorkflowObserver.onStepComplete o;
     WorkflowObserver.onStepError :=
       (fun f s e => calm (f s e)) <$> WorkflowObserver.onStepError o;
     WorkflowObserver.onWorkflowComplete :=
       calm <$> WorkflowObserver.onWorkflowComplete o;
     WorkflowObserver.onWorkflowStart :=
       calm <$> WorkflowObserver.onWorkflowStart o |}.

(** Two machine states that differ at most in what was written to the
    console. *)
Definition agree (s s' : State) : Prop :=
  env s = env s' /\ trace s = trace s'.

(** A computation that cannot throw. *)
Definition unfailing (m : M unit) : Prop :=
  forall s, m s = (Normal tt, snd (m s)).

(** The engine options with another [maxConcurrency]. *)
Definition with_maxConcurrency (mc : option Z) (o : WorkflowEngineOptions.t)
    : WorkflowEngineOptions.t :=
  {| WorkflowEngineOptions.workflowId := WorkflowEngineOptions.workflowId o;
     WorkflowEngineOptions.workflowName := WorkflowEngineOptions.workflowName o;
     WorkflowEngineOptions.result := WorkflowEngineOptions.result o;
     WorkflowEngineOptions.metadata := WorkflowEngineOptions.metadata o;
     WorkflowEngineOptions.continueOnError := WorkflowEngineOptions.continueOnError o;
     WorkflowEngineOptions.maxConcurrency := mc |}.

(** The same engine with other observers. *)
Definition with_observers (observers : list WorkflowObserver.t) (this : WorkflowEngine.t)
    : WorkflowEngine.t :=
  {| WorkflowEngine.steps := WorkflowEngine.steps this;
     WorkflowEngine.observers := observers;
     WorkflowEngine.options := WorkflowEngine.options this |}.

(** The calls an engine makes on a duration-aggregating observer, each
    in the environment of its moment. *)
Inductive PerformanceCall : Type :=
  | CallStepStart (stepName : string) (e : Env)
  | CallStepComplete (stepName : string) (e : Env)
  | CallStepError (stepName : string) (error : Failure) (e : Env).

(** The observer's private state after a call. *)
Definition perform (this : PerformanceObserver.t) (c : PerformanceCall)
    : PerformanceObserver.t :=
  match c with
  | CallStepStart n e => fst (snd (PerformanceObserver.onStepStart this n e))
  | CallStepComplete n e => fst (snd (PerformanceObserver.onStepComplete this n e))
  | CallStepError n err e => fst (snd (PerformanceObserver.onStepError this n err e))
  end.

(** The key under which a call to [onStepStart] records its instant, and
    the workflow id and step name it is made for. *)
Definition startedKey (c : PerformanceCall) : option string :=
  match c with
  | CallStepStart n e => Some (PerformanceObserver.key (ctx e) n)
  | _ => None
  end.

Definition startedPair (c : PerformanceCall) : option (string * string) :=
  match c with
  | CallStepStart n e => Some (WorkflowContext.workflowId (ctx e), n)
  | _ => None
  end.

(** The workflow id a call is made with. *)
Definition callId (c : PerformanceCall) : string :=
  match c with
  | CallStepStart _ e | CallStepComplete _ e | CallStepError _ _ e =>
      WorkflowContext.workflowId (ctx e)
  end.

(** A string without a colon. *)
Definition is_colon (c : Ascii.ascii) : bool := String.eqb (String c EmptyString) ":".

Fixpoint colon_free (s : string) : bool :=
  match s with
  | EmptyString => true
  | String c rest => negb (is_colon c) && colon_free rest
  end.

(** ** The environment through a run *)

(** What the callbacks of the observers for [n], each run in the
    environment the one before it left, make of the environment. *)
Fixpoint notified_from (observers : list WorkflowObserver.t) (n : Notification)
    (e : Env) : Env :=
  match observers with
  | [] => e
  | observer :: rest =>
      notified_from rest n
        match method observer n with
        | Some m => snd (m e)
        | None => e
        end
  end.

Definition notified (this : WorkflowEngine.t) (n : Notification) (e : Env) : Env :=
  notified_from (WorkflowEngine.observers this) n e.


(** The environment in which [step.execute(context)] is called, when the
    loop reaches [step] in environment [e]. *)
Definition invoked (this : WorkflowEngine.t) (step : WorkflowStep.t) (e : Env) : Env :=
  notified this (StepStart (WorkflowStep.name step))
    {| ctx := WorkflowContext.set_currentStepName (Some (WorkflowStep.name step)) (ctx e);
       world := world e |}.





(** ** Sample workflows *)

Module Sample.
Definition initial : World := {| heap := ∅; clock := 1000; entropy := 0 |}.

Definition options (continueOnError : bool) (metadata : option loc)
    : WorkflowEngineOptions.t :=
  {| WorkflowEngineOptions.workflowId := None;
     WorkflowEngineOptions.workflowName := "sample";
     WorkflowEngineOptions.result := VUndefined;
     WorkflowEngineOptions.metadata := metadata;
     WorkflowEngineOptions.continueOnError := Some continueOnError;
     WorkflowEngineOptions.maxConcurrency := None |}.

(** [async () => {}] *)
Definition succeed : Async unit := fun e => (Normal tt, e).

(** [() => { throw error }] *)
Definition fail (error : Failure) : Async unit := fun e => (Throw error, e).

Definition A : WorkflowStep.t := BasicStep.new "A" succeed.
Definition B : WorkflowStep.t := BasicStep.new "B" (fail (VError "boom")).
Definition C : WorkflowStep.t := BasicStep.new "C" succeed.

(** An observer with the five callbacks, whose step-start callback
    throws. *)
Definition faulty : WorkflowObserver.t :=
  {| WorkflowObserver.onStepStart := Some (fun _ => fail (VString "observer down"));
     WorkflowObserver.onStepComplete := Some (fun _ => succeed);
     WorkflowObserver.onStepError := Some (fun _ _ => succeed);
     WorkflowObserver.onWorkflowComplete := Some succeed;
     WorkflowObserver.onWorkflowStart := Some succeed |}.

(** An observer with the step-start and step-error callbacks only. *)
Definition listener : WorkflowObserver.t :=
  {| WorkflowObserver.onStepStart := Some (fun _ => succeed);
     WorkflowObserver.onStepComplete := None;
     WorkflowObserver.onStepError := Some (fun _ _ => succeed);
     WorkflowObserver.onWorkflowComplete := None;
     WorkflowObserver.onWorkflowStart := None |}.

Definition engine (continueOnError : bool) : WorkflowEngine.t :=
  WorkflowEngine.addObservers [faulty; listener]
    (WorkflowEngine.addSteps [A; B; C]
       (WorkflowEngine.new (options continueOnError None))).

(** A branch whose predicate holds and whose true child throws. *)
Definition child : WorkflowStep.t := BasicStep.new "child" (fail (VError "declined")).

Definition branch : WorkflowStep.t :=
  ConditionalStep.new "branch" (fun e => (Normal true, e)) child None.

Definition branching : WorkflowEngine.t :=
  WorkflowEngine.addStep branch (WorkflowEngine.new (options false None)).

(** [context => { context.metadata.seen = true }] *)
Definition remember : Async unit :=
  fun e =>
    (Normal tt,
     {| ctx := ctx e;
        world :=
          set_heap (set_prop (heap (world e)) (WorkflowContext.metadata (ctx e))
                      "seen" (VBool true))
                   (world e) |}).

(** A world in which the caller has made an empty object, at address 0,
    and an engine that got it as its [metadata] option. *)
Definition seeded_world : World :=
  {| heap := {[ 0%nat := ∅ ]}; clock := 1000; entropy := 0 |}.

Definition seeded : WorkflowEngine.t :=
  WorkflowEngine.addStep (BasicStep.new "remember" remember)
    (WorkflowEngine.new (options false (Some 0%nat))).

(** A context with the identifier [id], fresh from its constructor, and
    the world around it. *)
Definition environment_of (id : string) : Env :=
  let '(c, w) :=
    WorkflowContext.new
      {| WorkflowContextOptions.workflowId := Some id;
         WorkflowContextOptions.workflowName := "sample";
         WorkflowContextOptions.input := VUndefined;
         WorkflowContextOptions.result := VUndefined;
         WorkflowContextOptions.metadata := None |} initial in
  {| ctx := c; world := w |}.

Definition environment : Env := environment_of "run-1".

Definition context : WorkflowContext.t := ctx environment.

(** The same environment, [ms] milliseconds later. *)
Definition later (ms : Z) (e : Env) : Env :=
  {| ctx := ctx e;
     world := {| heap := heap (world e);
                 clock := clock (world e) + ms;
                 entropy := entropy (world e) |} |}.
End Sample.

(** ** The factory *)

Module WorkflowFactory.
(** [createWorkflow({ steps, observers, ...engineOptions })]; an array is
    truthy, so each guard comes down to its length test. *)
Definition createWorkflow (engineOptions : WorkflowEngineOptions.t)
    (steps : option (list WorkflowStep.t))
    (observers : option (list WorkflowObserver.t)) : WorkflowEngine.t :=
  let engine := WorkflowEngine.new engineOptions in
  let engine :=
    match steps with
    | Some steps =>
        if bool_decide (0 < length steps)%nat
        then WorkflowEngine.addSteps steps engine
        else engine
    | None => engine
    end in
  let engine :=
    match observers with
    | Some observers =>
        if bool_decide (0 < length observers)%nat
        then WorkflowEngine.addObservers observers engine
        else engine
    | None => engine
    end in
  engine.
End WorkflowFactory.

(** ** Vocabulary for whole runs *)

(** How the steps the loop gets to end, from state [s] on: one completion
    per step executed. *)
Fixpoint outcomes (this : WorkflowEngine.t) (steps : list WorkflowStep.t) (s : State)
    : list (Completion unit) :=
  match steps with
  | [] => []
  | step :: rest =>
      outcome this step s ::
      match fst (WorkflowEngine.iteration this step s) with
      | Normal false => outcomes this rest (snd (WorkflowEngine.iteration this step s))
      | _ => []
      end
  end.

(** The events of the iteration for [step] when its [execute] ends with
    [r] (and, when it threw, the failure could be recorded). *)
Definition block (this : WorkflowEngine.t) (step : WorkflowStep.t) (r : Completion unit)
    : list TraceEvent :=
  fired this (StepStart (WorkflowStep.name step)) ++
  [Executed (WorkflowStep.name step)] ++
  match r with
  | Normal _ => fired this (StepComplete (WorkflowStep.name step))
  | Throw e => fired this (StepError (WorkflowStep.name step) e)
  end.

Definition blocks (this : WorkflowEngine.t) (steps : list WorkflowStep.t)
    (rs : list (Completion unit)) : list TraceEvent :=
  concat (zip_with (block this) steps rs).

(** The events of an iteration cut short: the failure of [step] could
    not be recorded, and nothing came after its execution. *)
Definition cut (this : WorkflowEngine.t) (step : WorkflowStep.t) : list TraceEvent :=
  fired this (StepStart (WorkflowStep.name step)) ++ [Executed (WorkflowStep.name step)].

(** The failures among the completions [rs] of [steps]: step name and
    value thrown. *)
Definition failures (steps : list WorkflowStep.t) (rs : list (Completion unit))
    : list (string * Failure) :=
  omap (fun '(step, r) =>
          match r with
          | Throw e => Some (WorkflowStep.name step, e)
          | Normal _ => None
          end)
       (zip steps rs).


(** User code that steps from an environment to one related to it by
    [R]. *)
Definition keeps {A} (R : Env -> Env -> Prop) (f : Async A) : Prop :=
  forall e, R e (snd (f e)).

Definition kept (R : Env -> Env -> Prop) (this : WorkflowEngine.t) : Prop :=
  Forall (fun step => keeps R (WorkflowStep.execute step)) (WorkflowEngine.steps this) /\
  Forall (fun o => forall n m, method o n = Some m -> keeps R m)
         (WorkflowEngine.observers this).

(** A relation the engine's own writes to the context go along with. *)
Definition engine_compatible (R : Env -> Env -> Prop) : Prop :=
  (forall e n,
     R e {| ctx := WorkflowContext.set_currentStepName n (ctx e); world := world e |}) /\
  (forall e step error c,
     WorkflowContext.addError step error (clock (world e)) (heap (world e)) (ctx e)
       = Normal c ->
     R e {| ctx := c; world := world e |}) /\
  (forall e,
     R e {| ctx := WorkflowContext.complete (clock (world e)) (ctx e); world := world e |}).

(** The clock has not gone back and [startTime] is what it was. *)
Definition time_goes_on (e e' : Env) : Prop :=
  clock (world e) <= clock (world e') /\
  WorkflowContext.startTime (ctx e') = WorkflowContext.startTime (ctx e).

(** The identity of the context is what it was. *)
Definition same_identity (e e' : Env) : Prop :=
  WorkflowContext.workflowId (ctx e') = WorkflowContext.workflowId (ctx e) /\
  WorkflowContext.workflowName (ctx e') = WorkflowContext.workflowName (ctx e).

(** Error records were added at the end, if at all. *)
Definition errors_grow (e e' : Env) : Prop :=
  WorkflowContext.errors (ctx e) `prefix_of` WorkflowContext.errors (ctx e').

(** A sequence of [addError] calls, each with its step, its failure, its
    instant and the heap of its moment; a call that throws leaves the
    context as it was. *)
Definition addErrors (calls : list (string * Failure * Z * Heap)) (c : WorkflowContext.t)
    : WorkflowContext.t :=
  fold_left
    (fun c '(step, error, now, h) =>
       match WorkflowContext.addError step error now h c with
       | Normal c' => c'
       | Throw _ => c
       end)
    calls c.


(** The own property [stepName] of [context.metadata.performance.steps],
    with [undefined] for whatever is missing on the way. *)
Definition recordedDuration (h : Heap) (md : loc) (stepName : string) : JsValue :=
  match get_prop h md "performance" with
  | VRef p =>
      match get_prop h p "steps" with
      | VRef s => get_prop h s stepName
      | _ => VUndefined
      end
  | _ => VUndefined
  end.

(** The metadata of the context is an object of the heap, and where it
    has performance figures they are a tree: the record, its [steps]
    table and the metadata object are three objects. *)
Definition metadata_in_shape (e : Env) : Prop :=
  let h := heap (world e) in
  let md := WorkflowContext.metadata (ctx e) in
  md ∈ dom h /\
  (ToBoolean (get_prop h md "performance") = false \/
   exists p s,
     get_prop h md "performance" = VRef p /\
     get_prop h p "steps" = VRef s /\
     p <> md /\ s <> md /\ s <> p).

(** More samples. *)
Module Demo.
(** [async () => { await sleep(ms) }] *)
Definition sleep (ms : Z) : Async unit :=
  fun e => (Normal tt, Sample.later ms e).

Definition slow : WorkflowStep.t := BasicStep.new "slow" (sleep 40).

Definition engine (continueOnError : bool) : WorkflowEngine.t :=
  WorkflowEngine.addObservers [Sample.faulty; Sample.listener]
    (WorkflowEngine.addSteps [slow; Sample.B; Sample.C]
       (WorkflowEngine.new (Sample.options continueOnError None))).

(** Three steps that succeed. *)
Definition smooth : WorkflowEngine.t :=
  WorkflowEngine.addObservers [Sample.faulty; Sample.listener]
    (WorkflowEngine.addSteps [Sample.A; slow; Sample.C]
       (WorkflowEngine.new (Sample.options false None))).

(** [context => { context.addError('warn', 'careful') }]: a step that
    records a warning of its own and succeeds. *)
Definition warn : Async unit :=
  fun e =>
    match WorkflowContext.addError "warn" (VString "careful")
            (clock (world e)) (heap (world e)) (ctx e) with
    | Normal c => (Normal tt, {| ctx := c; world := world e |})
    | Throw error => (Throw error, e)
    end.

Definition wary : WorkflowEngine.t :=
  WorkflowEngine.addSteps [BasicStep.new "warn" warn; Sample.B]
    (WorkflowEngine.new (Sample.options true None)).



(** [(name, context) => { context.metadata[name] = what }], for a [name]
    that is not ["__proto__"]. *)
Definition note (name what : string) : Async unit :=
  fun e =>
    (Normal tt,
     {| ctx := ctx e;
        world :=
          set_heap (set_prop (heap (world e)) (WorkflowContext.metadata (ctx e))
                      name (VString what))
                   (world e) |}).

(** An observer that keeps a diary in the metadata: for each step, and
    for the workflow, the last thing it heard of it. *)
Definition diary : WorkflowObserver.t :=
  {| WorkflowObserver.onStepStart := Some (fun stepName => note stepName "started");
     WorkflowObserver.onStepComplete := Some (fun stepName => note stepName "completed");
     WorkflowObserver.onStepError := Some (fun stepName _ => note stepName "failed");
     WorkflowObserver.onWorkflowComplete := Some (note "workflow" "completed");
     WorkflowObserver.onWorkflowStart := Some (note "workflow" "started") |}.


(** [() => { throw { toString: 5 } }]: the object thrown has a
    [toString] property that is no function, so that it has no
    conversion to a string. *)
Definition unprintable : Async unit :=
  fun e =>
    let '(l, h) := alloc (heap (world e)) {[ "toString" := VNumber 5 ]} in
    (Throw (VRef l), {| ctx := ctx e; world := set_heap h (world e) |}).

(** A step that throws such an object, then a step that succeeds, with
    [continueOnError] on. *)
Definition fragile : WorkflowEngine.t :=
  WorkflowEngine.addObservers [Sample.listener]
    (WorkflowEngine.addSteps [BasicStep.new "opaque" unprintable; Sample.C]
       (WorkflowEngine.new (Sample.options true None))).


(** A heap with such an object at address 7. *)
Definition opaque_heap : Heap := {[ 7%nat := {[ "toString" := VNumber 5 ]} ]}.

(** An environment in which some step has put a number where the
    performance figures go: [context.metadata.performance = 5]. *)
Definition cluttered : Env :=
  {| ctx := ctx Sample.environment;
     world :=
       set_heap (set_prop (heap (world Sample.environment))
                   (WorkflowContext.metadata (ctx Sample.environment))
                   "performance" (VNumber 5))
                (world Sample.environment) |}.

(** An engine constructed with an identifier of the caller's. *)
Definition named : WorkflowEngine.t :=
  WorkflowEngine.addStep slow
    (WorkflowEngine.new
       {| WorkflowEngineOptions.workflowId := Some "run-7";
          WorkflowEngineOptions.workflowName := "sample";
          WorkflowEngineOptions.result := VUndefined;
          WorkflowEngineOptions.metadata := None;
          WorkflowEngineOptions.continueOnError := None;
          WorkflowEngineOptions.maxConcurrency := None |}).
End Demo.

(** ** The monad, step by step *)

Lemma bind_run {A B} (m : M A) (f : A -> M B) (s : State) :
  (m ≫= f) s =
  match m s with
  | (Normal a, s') => f a s'
  | (Throw e, s') => (Throw e, s')
  end.
Proof. reflexivity. Qed.

Lemma unfailing_bind (m k : M unit) :
  unfailing m -> unfailing k -> unfailing (m;; k).
Proof.
  intros Hm Hk s. rewrite bind_run, Hm. simpl. apply Hk.
Qed.

Lemma unfailing_seq {A} (m : M unit) (k : M A) (s : State) :
  unfailing m -> (m;; k) s = k (snd (m s)).
Proof. intros Hm. rewrite bind_run, Hm. reflexivity. Qed.

Lemma unfailing_record ev : unfailing (record ev).
Proof. intros s. reflexivity. Qed.

Lemma unfailing_modify_ctx f : unfailing (modify_ctx f).
Proof. intros s. reflexivity. Qed.

Lemma modify_ctx_env f s :
  env (snd (modify_ctx f s)) =
  {| ctx := f (clock (world (env s))) (ctx (env s)); world := world (env s) |}.
Proof. reflexivity. Qed.

Lemma unfailing_console_error msg e : unfailing (console_error msg e).
Proof. intros s. reflexivity. Qed.

(** ** Conversion to a string, and [addError] *)

Lemma ToString_cases h v :
  ToString h v = Normal (text v) \/ ToString h v = Throw TypeError.
Proof.
  destruct v; simpl; auto. destruct (has_own h l "toString"); auto.
Qed.

Lemma messageOf_convertible h error :
  convertible h error = true ->
  WorkflowContext.messageOf h error =
  Normal (WorkflowError.message (errorRecord EmptyString error 0)).
Proof.
  unfold convertible. destruct error as [m|v]; simpl; [done|].
  destruct (ToString_cases h v) as [-> | ->]; done.
Qed.

Lemma messageOf_unconvertible h error :
  convertible h error = false ->
  WorkflowContext.messageOf h error = Throw TypeError.
Proof.
  unfold convertible. destruct error as [m|v]; simpl; [done|].
  destruct (ToString_cases h v) as [-> | ->]; done.
Qed.

Lemma addError_convertible step error now h c :
  convertible h error = true ->
  WorkflowContext.addError step error now h c =
  Normal (WorkflowContext.set_errors
            (WorkflowContext.errors c ++ [errorRecord step error now]) c).
Proof.
  intros H. unfold WorkflowContext.addError.
  by rewrite (messageOf_convertible _ _ H).
Qed.

Lemma addError_unconvertible step error now h c :
  convertible h error = false ->
  WorkflowContext.addError step error now h c = Throw TypeError.
Proof.
  intros H. unfold WorkflowContext.addError.
  by rewrite (messageOf_unconvertible _ _ H).
Qed.

Lemma addError_Normal step error now h c c' :
  WorkflowContext.addError step error now h c = Normal c' ->
  convertible h error = true /\
  c' = WorkflowContext.set_errors
         (WorkflowContext.errors c ++ [errorRecord step error now]) c.
Proof.
  destruct (convertible h error) eqn:H.
  - rewrite (addError_convertible _ _ _ _ _ H). by intros [= <-].
  - by rewrite (addError_unconvertible _ _ _ _ _ H).
Qed.

Lemma addError_Throw step error now h c t :
  WorkflowContext.addError step error now h c = Throw t ->
  convertible h error = false /\ t = TypeError.
Proof.
  destruct (convertible h error) eqn:H.
  - by rewrite (addError_convertible _ _ _ _ _ H).
  - rewrite (addError_unconvertible _ _ _ _ _ H). by intros [= <-].
Qed.

Lemma invoke_addError_convertible name error s :
  convertible (heap (world (env s))) error = true ->
  invoke_ctx (WorkflowContext.addError name error) s = (Normal tt, noted name error s).
Proof.
  intros H. unfold invoke_ctx. by rewrite (addError_convertible _ _ _ _ _ H).
Qed.

Lemma invoke_addError_unconvertible name error s :
  convertible (heap (world (env s))) error = false ->
  invoke_ctx (WorkflowContext.addError name error) s = (Throw TypeError, s).
Proof.
  intros H. unfold invoke_ctx. by rewrite (addError_unconvertible _ _ _ _ _ H).
Qed.

(** ** Notification never throws *)

Lemma notifyObserver_unfailing i o n : unfailing (WorkflowEngine.notifyObserver i o n).
Proof.
  intros s. unfold WorkflowEngine.notifyObserver.
  destruct (method o n) as [m|]; [|reflexivity].
  unfold try_catch. rewrite bind_run. simpl. unfold call. simpl.
  destruct (m (env s)) as [[[]|e] env']; reflexivity.
Qed.

Lemma notifyObservers_from_unfailing obs : forall i n,
  unfailing (WorkflowEngine.notifyObservers_from i obs n).
Proof.
  induction obs as [|o obs IH]; intros i n.
  - intros s. reflexivity.
  - simpl. apply unfailing_bind; [apply notifyObserver_unfailing | apply IH].
Qed.

Lemma notifyObservers_unfailing this n : unfailing (WorkflowEngine.notifyObservers this n).
Proof. apply notifyObservers_from_unfailing. Qed.

(** ** What a notification does to the machine state *)

Lemma notifyObserver_absent i o n s :
  method o n = None -> WorkflowEngine.notifyObserver i o n s = (Normal tt, s).
Proof. intros H. unfold WorkflowEngine.notifyObserver. rewrite H. reflexivity. Qed.

Lemma notifyObserver_present i o n m s :
  method o n = Some m ->
  snd (WorkflowEngine.notifyObserver i o n s) =
  {| env := snd (m (env s));
     trace := trace s ++ [Notified i n];
     console :=
       console s ++
       match fst (m (env s)) with
       | Normal _ => []
       | Throw e => [("Error in workflow observer (" +:+ eventName n +:+ ")", e)]
       end |}.
Proof.
  intros H. unfold WorkflowEngine.notifyObserver. rewrite H.
  unfold try_catch. rewrite bind_run. simpl. unfold call. simpl.
  destruct (m (env s)) as [[[]|e] env']; simpl; [|reflexivity].
  rewrite app_nil_r. reflexivity.
Qed.

Lemma notifyObservers_from_cons i o obs n s :
  WorkflowEngine.notifyObservers_from i (o :: obs) n s =
  WorkflowEngine.notifyObservers_from (S i) obs n
    (snd (WorkflowEngine.notifyObserver i o n s)).
Proof.
  simpl. apply unfailing_seq, notifyObserver_unfailing.
Qed.

Lemma notifyObservers_from_trace obs : forall i n s,
  trace (snd (WorkflowEngine.notifyObservers_from i obs n s)) =
  trace s ++ fired_from i obs n.
Proof.
  induction obs as [|o obs IH]; intros i n s.
  - simpl. by rewrite app_nil_r.
  - rewrite notifyObservers_from_cons, IH. simpl.
    destruct (method o n) as [m|] eqn:Hm.
    + rewrite (notifyObserver_present _ _ _ _ _ Hm). simpl.
      by rewrite <- app_assoc.
    + by rewrite (notifyObserver_absent _ _ _ _ Hm).
Qed.

Lemma notifyObservers_trace this n s :
  trace (snd (WorkflowEngine.notifyObservers this n s)) = trace s ++ fired this n.
Proof. apply notifyObservers_from_trace. Qed.

(** The callbacks are really called, each in the environment the one
    before it left. *)
Lemma notifyObservers_from_env obs : forall i n s,
  env (snd (WorkflowEngine.notifyObservers_from i obs n s)) =
  notified_from obs n (env s).
Proof.
  induction obs as [|o obs IH]; intros i n s; [reflexivity|].
  rewrite notifyObservers_from_cons, IH. simpl.
  destruct (method o n) as [m|] eqn:Hm.
  - by rewrite (notifyObserver_present _ _ _ _ _ Hm).
  - by rewrite (notifyObserver_absent _ _ _ _ Hm).
Qed.

Lemma notifyObservers_env this n s :
  env (snd (WorkflowEngine.notifyObservers this n s)) = notified this n (env s).
Proof. apply notifyObservers_from_env. Qed.

Lemma notifyObservers_from_preserves {B} (field : WorkflowContext.t -> B) obs :
  Forall (observer_preserves field) obs ->
  forall i n s,
    field (ctx (env (snd (WorkflowEngine.notifyObservers_from i obs n s)))) =
    field (ctx (env s)).
Proof.
  induction 1 as [|o obs Ho _ IH]; intros i n s; [reflexivity|].
  rewrite notifyObservers_from_cons, IH.
  destruct (method o n) as [m|] eqn:Hm.
  - rewrite (notifyObserver_present _ _ _ _ _ Hm). simpl. by apply (Ho n).
  - by rewrite (notifyObserver_absent _ _ _ _ Hm).
Qed.

Lemma notifyObservers_preserves {B} (field : WorkflowContext.t -> B) this n s :
  Forall (observer_preserves field) (WorkflowEngine.observers this) ->
  field (ctx (env (snd (WorkflowEngine.notifyObservers this n s)))) =
  field (ctx (env s)).
Proof. intros H. by apply notifyObservers_from_preserves. Qed.


Lemma notifyObservers_from_agree obs obs' :
  Forall2 similar obs obs' ->
  forall i n s s', agree s s' ->
    agree (snd (WorkflowEngine.notifyObservers_from i obs n s))
          (snd (WorkflowEngine.notifyObservers_from i obs' n s')).
Proof.
  induction 1 as [|o o' obs obs' Ho _ IH]; intros i n s s' Hs; [exact Hs|].
  rewrite !notifyObservers_from_cons. apply IH.
  destruct Hs as [He Ht]. specialize (Ho n).
  inversion Ho as [m m' Hm Hn Hn'|Hn Hn']; symmetry in Hn, Hn'.
  - rewrite (notifyObserver_present _ _ _ _ _ Hn),
            (notifyObserver_present _ _ _ _ _ Hn').
    split; simpl; [by rewrite He, Hm | by rewrite Ht].
  - rewrite (notifyObserver_absent _ _ _ _ Hn), (notifyObserver_absent _ _ _ _ Hn').
    by split.
Qed.

(** ** One iteration of the step loop *)

Lemma entering_unfold this step s :
  entering this step s =
  snd (record (Executed (WorkflowStep.name step))
    (snd (WorkflowEngine.notifyObservers this (StepStart (WorkflowStep.name step))
      (snd (modify_ctx (fun _ =>
              WorkflowContext.set_currentStepName (Some (WorkflowStep.name step))) s))))).
Proof.
  unfold entering.
  rewrite unfailing_seq by apply unfailing_modify_ctx.
  rewrite unfailing_seq by apply notifyObservers_unfailing.
  reflexivity.
Qed.

Lemma entering_env this step s : env (entering this step s) = invoked this step (env s).
Proof.
  rewrite entering_unfold. cbn [record snd env]. by rewrite notifyObservers_env.
Qed.

(** The iteration, with its two [try] outcomes and the two outcomes of
    the [catch] block. *)
Lemma iteration_unfold this step s :
  WorkflowEngine.iteration this step s =
  match call (WorkflowStep.execute step) (entering this step s) with
  | (Normal _, s') =>
      (Normal false,
       snd (WorkflowEngine.notifyObservers this (StepComplete (WorkflowStep.name step)) s'))
  | (Throw e, s') =>
      if convertible (heap (world (env s'))) e
      then (Normal (negb (WorkflowEngine.continueOnError this)),
            snd (WorkflowEngine.notifyObservers this (StepError (WorkflowStep.name step) e)
                   (noted (WorkflowStep.name step) e s')))
      else (Throw TypeError, s')
  end.
Proof.
  rewrite entering_unfold. unfold WorkflowEngine.iteration.
  rewrite unfailing_seq by apply unfailing_modify_ctx.
  unfold try_catch, WorkflowEngine.attempt.
  rewrite bind_run.
  rewrite unfailing_seq by apply notifyObservers_unfailing.
  rewrite unfailing_seq by apply unfailing_record.
  rewrite bind_run.
  destruct (call (WorkflowStep.execute step) _) as [[u|e] s'].
  - rewrite notifyObservers_unfailing. reflexivity.
  - unfold WorkflowEngine.recover. rewrite bind_run.
    destruct (convertible (heap (world (env s'))) e) eqn:Hc.
    + rewrite (invoke_addError_convertible _ _ _ Hc).
      rewrite bind_run, notifyObservers_unfailing. reflexivity.
    + by rewrite (invoke_addError_unconvertible _ _ _ Hc).
Qed.

Lemma iteration_normal this step s :
  outcome this step s = Normal tt ->
  WorkflowEngine.iteration this step s =
  (Normal false,
   snd (WorkflowEngine.notifyObservers this (StepComplete (WorkflowStep.name step))
          (settled this step s))).
Proof.
  unfold outcome, settled. intros H. rewrite iteration_unfold.
  destruct (call (WorkflowStep.execute step) _) as [[u|e] s']; simpl in *; [done|discriminate].
Qed.

Lemma iteration_throw this step s e :
  outcome this step s = Throw e ->
  convertible (heap (world (env (settled this step s)))) e = true ->
  WorkflowEngine.iteration this step s =
  (Normal (negb (WorkflowEngine.continueOnError this)),
   snd (WorkflowEngine.notifyObservers this (StepError (WorkflowStep.name step) e)
          (noted (WorkflowStep.name step) e (settled this step s)))).
Proof.
  unfold outcome, settled. intros H Hc. rewrite iteration_unfold.
  destruct (call (WorkflowStep.execute step) _) as [[u|e'] s']; simpl in *; [discriminate|].
  injection H as ->. by rewrite Hc.
Qed.

Lemma iteration_abort this step s e :
  outcome this step s = Throw e ->
  convertible (heap (world (env (settled this step s)))) e = false ->
  WorkflowEngine.iteration this step s = (Throw TypeError, settled this step s).
Proof.
  unfold outcome, settled. intros H Hc. rewrite iteration_unfold.
  destruct (call (WorkflowStep.execute step) _) as [[u|e'] s']; simpl in *; [discriminate|].
  injection H as ->. by rewrite Hc.
Qed.

(** The three ways an iteration can go. *)
Lemma iteration_cases this step s :
  (outcome this step s = Normal tt /\
   WorkflowEngine.iteration this step s =
   (Normal false,
    snd (WorkflowEngine.notifyObservers this (StepComplete (WorkflowStep.name step))
           (settled this step s)))) \/
  (exists e,
     outcome this step s = Throw e /\
     convertible (heap (world (env (settled this step s)))) e = true /\
     WorkflowEngine.iteration this step s =
     (Normal (negb (WorkflowEngine.continueOnError this)),
      snd (WorkflowEngine.notifyObservers this (StepError (WorkflowStep.name step) e)
             (noted (WorkflowStep.name step) e (settled this step s))))) \/
  (exists e,
     outcome this step s = Throw e /\
     convertible (heap (world (env (settled this step s)))) e = false /\
     WorkflowEngine.iteration this step s = (Throw TypeError, settled this step s)).
Proof.
  destruct (outcome this step s) as [[]|e] eqn:H.
  - left. split; [reflexivity | by apply iteration_normal].
  - right. destruct (convertible (heap (world (env (settled this step s)))) e) eqn:Hc.
    + left. exists e. split; [reflexivity|]. split; [exact Hc|].
      by apply (iteration_throw _ _ _ e).
    + right. exists e. split; [reflexivity|]. split; [exact Hc|].
      by apply (iteration_abort _ _ _ e).
Qed.

Lemma loop_cons this step rest s :
  WorkflowEngine.loop this (step :: rest) s =
  match fst (WorkflowEngine.iteration this step s) with
  | Normal false => WorkflowEngine.loop this rest (snd (WorkflowEngine.iteration this step s))
  | Normal true => (Normal tt, snd (WorkflowEngine.iteration this step s))
  | Throw e => (Throw e, snd (WorkflowEngine.iteration this step s))
  end.
Proof.
  simpl. rewrite bind_run.
  destruct (WorkflowEngine.iteration this step s) as [[[|]|e] s']; reflexivity.
Qed.

(** A run: the loop, and what [conclude] makes of its end. *)
Lemma run_unfold this s :
  WorkflowEngine.run this s =
  conclude this
    (WorkflowEngine.loop this (WorkflowEngine.steps this)
       (snd (WorkflowEngine.notifyObservers this WorkflowStart s))).
Proof.
  unfold WorkflowEngine.run.
  rewrite unfailing_seq by apply notifyObservers_unfailing.
  rewrite bind_run.
  destruct (WorkflowEngine.loop this _ _) as [[u|e] s']; [|reflexivity].
  rewrite unfailing_seq by apply unfailing_modify_ctx.
  rewrite unfailing_seq by apply notifyObservers_unfailing.
  reflexivity.
Qed.

Lemma execute_unfold this input w :
  WorkflowEngine.execute this input w =
  conclude this
    (WorkflowEngine.loop this (WorkflowEngine.steps this) (started this input w)).
Proof. unfold WorkflowEngine.execute. by rewrite run_unfold. Qed.


Lemma execute_throw this input w t s' :
  WorkflowEngine.loop this (WorkflowEngine.steps this) (started this input w)
    = (Throw t, s') ->
  WorkflowEngine.execute this input w = (Throw t, s').
Proof. intros H. by rewrite execute_unfold, H. Qed.

(** What [execute] returns is the context of the state it ends in. *)
Lemma execute_returns this input w c :
  fst (WorkflowEngine.execute this input w) = Normal c ->
  c = ctx (env (snd (WorkflowEngine.execute this input w))) /\
  exists s',
    WorkflowEngine.loop this (WorkflowEngine.steps this) (started this input w)
      = (Normal tt, s') /\
    snd (WorkflowEngine.execute this input w) = finished this s'.
Proof.
  rewrite execute_unfold.
  destruct (WorkflowEngine.loop this _ _) as [[[]|e] s']; simpl; [|discriminate].
  intros [= <-]. split; [reflexivity|]. by exists s'.
Qed.

(** ** The trace of a run, piece by piece *)

Lemma trace_started this input w :
  trace (started this input w) = fired this WorkflowStart.
Proof.
  unfold started. rewrite notifyObservers_trace.
  unfold WorkflowEngine.start.
  by destruct (WorkflowContext.new _ _).
Qed.

Lemma trace_finished this s :
  trace (finished this s) = trace s ++ fired this WorkflowComplete.
Proof. unfold finished. by rewrite notifyObservers_trace. Qed.

Lemma trace_entering this step s :
  trace (entering this step s) =
  trace s ++ fired this (StepStart (WorkflowStep.name step))
          ++ [Executed (WorkflowStep.name step)].
Proof.
  rewrite entering_unfold. simpl. rewrite notifyObservers_trace. simpl.
  by rewrite <- app_assoc.
Qed.

Lemma trace_settled this step s :
  trace (settled this step s) = trace (entering this step s).
Proof.
  unfold settled, call. by destruct (WorkflowStep.execute step _).
Qed.

Lemma trace_iteration_normal this step s :
  outcome this step s = Normal tt ->
  trace (snd (WorkflowEngine.iteration this step s)) =
  trace s ++ fired this (StepStart (WorkflowStep.name step))
          ++ [Executed (WorkflowStep.name step)]
          ++ fired this (StepComplete (WorkflowStep.name step)).
Proof.
  intros H. rewrite (iteration_normal _ _ _ H). simpl.
  rewrite notifyObservers_trace, trace_settled, trace_entering.
  by rewrite <- !app_assoc.
Qed.

Lemma trace_iteration_throw this step s e :
  outcome this step s = Throw e ->
  convertible (heap (world (env (settled this step s)))) e = true ->
  trace (snd (WorkflowEngine.iteration this step s)) =
  trace s ++ fired this (StepStart (WorkflowStep.name step))
          ++ [Executed (WorkflowStep.name step)]
          ++ fired this (StepError (WorkflowStep.name step) e).
Proof.
  intros H Hc. rewrite (iteration_throw _ _ _ _ H Hc). simpl.
  rewrite notifyObservers_trace. simpl. rewrite trace_settled, trace_entering.
  by rewrite <- !app_assoc.
Qed.

Lemma trace_iteration_abort this step s e :
  outcome this step s = Throw e ->
  convertible (heap (world (env (settled this step s)))) e = false ->
  trace (snd (WorkflowEngine.iteration this step s)) = trace s ++ cut this step.
Proof.
  intros H Hc. rewrite (iteration_abort _ _ _ _ H Hc). simpl.
  by rewrite trace_settled, trace_entering.
Qed.

Lemma stepOf_fired_from obs : forall i n ev,
  ev ∈ fired_from i obs n -> stepOf ev = notificationStep n.
Proof.
  induction obs as [|o obs IH]; intros i n ev; simpl.
  - by intros ?%elem_of_nil.
  - intros [Hev|Hev]%elem_of_app; [|by eapply IH].
    destruct (method o n); [|by apply elem_of_nil in Hev].
    apply list_elem_of_singleton in Hev as ->. by destruct n.
Qed.

Lemma executed_fired_from obs : forall i n, executed (fired_from i obs n) = [].
Proof.
  induction obs as [|o obs IH]; intros i n; [reflexivity|].
  simpl. unfold executed in *. rewrite omap_app, IH.
  by destruct (method o n).
Qed.

Lemma executed_app tr tr' : executed (tr ++ tr') = executed tr ++ executed tr'.
Proof. apply omap_app. Qed.

(** ** The context's [errors] and [currentStepName] through a run *)

Lemma new_errors options w :
  WorkflowContext.errors (fst (WorkflowContext.new options w)) = [].
Proof.
  unfold WorkflowContext.new.
  by destruct (WorkflowContextOptions.workflowId options),
              (WorkflowContextOptions.metadata options).
Qed.

Lemma start_env this input w :
  env (WorkflowEngine.start this input w) =
  {| ctx := fst (WorkflowContext.new (WorkflowEngine.contextOptions this input) w);
     world := snd (WorkflowContext.new (WorkflowEngine.contextOptions this input) w) |}.
Proof.
  unfold WorkflowEngine.start. by destruct (WorkflowContext.new _ _).
Qed.



Lemma errors_started this input w :
  Forall (observer_preserves WorkflowContext.errors) (WorkflowEngine.observers this) ->
  errors_of (started this input w) = [].
Proof.
  intros H. unfold errors_of, started.
  rewrite notifyObservers_preserves by done.
  rewrite start_env. apply new_errors.
Qed.

Lemma errors_finished this s :
  Forall (observer_preserves WorkflowContext.errors) (WorkflowEngine.observers this) ->
  errors_of (finished this s) = errors_of s.
Proof.
  intros H. unfold errors_of, finished. by rewrite notifyObservers_preserves.
Qed.

Lemma errors_entering this step s :
  Forall (observer_preserves WorkflowContext.errors) (WorkflowEngine.observers this) ->
  errors_of (entering this step s) = errors_of s.
Proof.
  intros H. rewrite entering_unfold. unfold errors_of. simpl.
  by rewrite notifyObservers_preserves.
Qed.

Lemma errors_settled this step s :
  preserves WorkflowContext.errors (WorkflowStep.execute step) ->
  errors_of (settled this step s) = errors_of (entering this step s).
Proof.
  intros H. unfold errors_of, settled, call.
  specialize (H (env (entering this step s))).
  by destruct (WorkflowStep.execute step _).
Qed.

Lemma errors_iteration_normal this step s :
  Forall (observer_preserves WorkflowContext.errors) (WorkflowEngine.observers this) ->
  preserves WorkflowContext.errors (WorkflowStep.execute step) ->
  outcome this step s = Normal tt ->
  errors_of (snd (WorkflowEngine.iteration this step s)) = errors_of s.
Proof.
  intros Ho Hs H. rewrite (iteration_normal _ _ _ H). simpl.
  unfold errors_of at 1. rewrite notifyObservers_preserves by done.
  fold (errors_of (settled this step s)).
  by rewrite errors_settled, errors_entering.
Qed.

Lemma errors_iteration_throw this step s e :
  Forall (observer_preserves WorkflowContext.errors) (WorkflowEngine.observers this) ->
  preserves WorkflowContext.errors (WorkflowStep.execute step) ->
  outcome this step s = Throw e ->
  convertible (heap (world (env (settled this step s)))) e = true ->
  errors_of (snd (WorkflowEngine.iteration this step s)) =
  errors_of s ++
  [errorRecord (WorkflowStep.name step) e (clock (world (env (settled this step s))))].
Proof.
  intros Ho Hs H Hc. rewrite (iteration_throw _ _ _ _ H Hc). cbn [snd].
  unfold errors_of at 1. rewrite notifyObservers_preserves by done.
  unfold noted. cbn [env ctx WorkflowContext.errors WorkflowContext.set_errors].
  fold (errors_of (settled this step s)).
  by rewrite errors_settled, errors_entering.
Qed.

Lemma errors_iteration_abort this step s e :
  Forall (observer_preserves WorkflowContext.errors) (WorkflowEngine.observers this) ->
  preserves WorkflowContext.errors (WorkflowStep.execute step) ->
  outcome this step s = Throw e ->
  convertible (heap (world (env (settled this step s)))) e = false ->
  errors_of (snd (WorkflowEngine.iteration this step s)) = errors_of s.
Proof.
  intros Ho Hs H Hc. rewrite (iteration_abort _ _ _ _ H Hc). cbn [snd].
  by rewrite errors_settled, errors_entering.
Qed.

Lemma current_iteration_normal this step s :
  Forall (observer_preserves WorkflowContext.currentStepName)
         (WorkflowEngine.observers this) ->
  preserves WorkflowContext.currentStepName (WorkflowStep.execute step) ->
  outcome this step s = Normal tt ->
  WorkflowContext.currentStepName (ctx (env (snd (WorkflowEngine.iteration this step s)))) =
  Some (WorkflowStep.name step).
Proof.
  intros Ho Hs H. rewrite (iteration_normal _ _ _ H). simpl.
  rewrite notifyObservers_preserves by done.
  unfold settled, call.
  specialize (Hs (env (entering this step s))).
  destruct (WorkflowStep.execute step _) as [r e']. simpl in *. rewrite Hs.
  rewrite entering_unfold. simpl.
  by rewrite notifyObservers_preserves.
Qed.

Lemma current_finished this s :
  Forall (observer_preserves WorkflowContext.currentStepName)
         (WorkflowEngine.observers this) ->
  WorkflowContext.currentStepName (ctx (env (finished this s))) =
  WorkflowContext.currentStepName (ctx (env s)).
Proof.
  intros H. unfold finished. by rewrite notifyObservers_preserves.
Qed.

Lemma iteration_break_normal this step s :
  outcome this step s = Normal tt ->
  fst (WorkflowEngine.iteration this step s) = Normal false.
Proof. intros H. by rewrite (iteration_normal _ _ _ H). Qed.

Lemma iteration_break_throw this step s e :
  outcome this step s = Throw e ->
  convertible (heap (world (env (settled this step s)))) e = true ->
  fst (WorkflowEngine.iteration this step s) =
  Normal (negb (WorkflowEngine.continueOnError this)).
Proof. intros H Hc. by rewrite (iteration_throw _ _ _ _ H Hc). Qed.

Lemma stepOf_fired this n ev : ev ∈ fired this n -> stepOf ev = notificationStep n.
Proof. apply stepOf_fired_from. Qed.

Lemma executed_fired this n : executed (fired this n) = [].
Proof. apply executed_fired_from. Qed.

(** A run whose loop gets through [done] goes on with the iteration for
    the next step, in the state reached. *)
Lemma loop_app this done : forall rest s,
  unbroken this done s ->
  WorkflowEngine.loop this (done ++ rest) s =
  WorkflowEngine.loop this rest (after this done s).
Proof.
  induction done as [|step done IH]; intros rest s H; [reflexivity|].
  destruct H as [Hstep Hdone].
  rewrite <- app_comm_cons, loop_cons, Hstep. simpl. by apply IH.
Qed.

Lemma execute_reaches this done step rest input w :
  WorkflowEngine.steps this = done ++ step :: rest ->
  unbroken this done (started this input w) ->
  WorkflowEngine.execute this input w =
  conclude this
    (WorkflowEngine.loop this (step :: rest) (after this done (started this input w))).
Proof.
  intros Hsteps Hdone. rewrite execute_unfold.
  by rewrite Hsteps, loop_app.
Qed.

(** ** An iteration, seen from the environment *)

Lemma outcome_invoked this step s r e' :
  WorkflowStep.execute step (invoked this step (env s)) = (r, e') ->
  outcome this step s = r /\
  env (settled this step s) = e' /\
  trace (settled this step s) = trace s ++ cut this step.
Proof.
  intros H. rewrite trace_settled, trace_entering.
  unfold outcome, settled, call. rewrite entering_env, H. done.
Qed.



Lemma iteration_aborts this step s error e' :
  WorkflowStep.execute step (invoked this step (env s)) = (Throw error, e') ->
  convertible (heap (world e')) error = false ->
  exists s',
    WorkflowEngine.iteration this step s = (Throw TypeError, s') /\
    env s' = e' /\
    trace s' = trace s ++ cut this step.
Proof.
  intros H Hc. destruct (outcome_invoked _ _ _ _ _ H) as (Hout & Henv & Htrace).
  rewrite <- Henv in Hc.
  eexists. split; [by apply (iteration_abort _ _ _ error)|]. by split.
Qed.






(** The sample observers leave the context object and the clock
    alone. *)
Lemma sample_observer_effect o n m e :
  o ∈ [Sample.faulty; Sample.listener; Demo.diary] ->
  method o n = Some m ->
  ctx (snd (m e)) = ctx e /\ clock (world (snd (m e))) = clock (world e).
Proof.
  intros Ho Hm.
  repeat (apply elem_of_cons in Ho as [->|Ho]); [..|by apply elem_of_nil in Ho].
  all: destruct n;
    cbv [method Sample.faulty Sample.listener Demo.diary fmap option_fmap option_map
         WorkflowObserver.onStepStart WorkflowObserver.onStepComplete
         WorkflowObserver.onStepError WorkflowObserver.onWorkflowStart
         WorkflowObserver.onWorkflowComplete] in Hm.
  all: try discriminate Hm.
  all: injection Hm as <-; split; reflexivity.
Defined.

Lemma sample_observer_preserves {B} (field : WorkflowContext.t -> B) o :
  o ∈ [Sample.faulty; Sample.listener; Demo.diary] -> observer_preserves field o.
Proof.
  intros Ho n m Hm e. by rewrite (proj1 (sample_observer_effect o n m e Ho Hm)).
Defined.

Lemma sample_observer_keeps_time o n m :
  o ∈ [Sample.faulty; Sample.listener; Demo.diary] ->
  method o n = Some m -> keeps time_goes_on m.
Proof.
  intros Ho Hm e. destruct (sample_observer_effect o n m e Ho Hm) as [Hctx Hclock].
  split; [rewrite Hclock; reflexivity | by rewrite Hctx].
Defined.

Lemma sample_observers_preserve {B} (field : WorkflowContext.t -> B) observers :
  Forall (fun o => o ∈ [Sample.faulty; Sample.listener; Demo.diary]) observers ->
  Forall (observer_preserves field) observers.
Proof.
  intros H. eapply Forall_impl; [exact H|]. intros o. apply sample_observer_preserves.
Defined.

Ltac sample_observers :=
  apply sample_observers_preserve;
  repeat apply List.Forall_cons; try apply List.Forall_nil;
  repeat first [apply list_elem_of_here | apply list_elem_of_further].

(** ** The engine's error channel *)

(** C1, on the code.  An engine with [continueOnError] on, whose first
    step throws an object that has no conversion to a string
    ([{ toString: 5 }]) and whose second step would succeed, is run.
    [execute] does not return the context: in the [catch] block
    [context.addError] throws a [TypeError], which leaves the loop and
    [execute].  No error record was appended and step-error was notified
    to no observer; the second step was never executed; and neither
    [context.complete()] nor the workflow-complete notifications took
    place. *)
Lemma unprintable_failure_escapes_execute :
  let this := Demo.fragile in
  let run := WorkflowEngine.execute this VUndefined Sample.initial in
  WorkflowEngine.continueOnError this = true /\
  WorkflowStep.name <$> WorkflowEngine.steps this = ["opaque"; "C"] /\
  outcomes this (WorkflowEngine.steps this) (started this VUndefined Sample.initial) =
    [Throw (VRef 1%nat)] /\
  get_prop (heap (world (env (snd run)))) 1%nat "toString" = VNumber 5 /\
  fst run = Throw TypeError /\
  errors_of (snd run) = [] /\
  trace (snd run) = [Notified 0 (StepStart "opaque"); Executed "opaque"] /\
  WorkflowContext.endTime (ctx (env (snd run))) = None.
Proof. vm_compute. repeat split. Qed.







(** ** Error attribution for a branching step *)

(** C4, as the code has it.  In every run whose loop reaches a
    condition-branching step, when the child the branch delegates to
    throws [e], the record appended to the context's [errors] carries the
    branching step's own name, the one the engine knows, whatever the
    child is called; step-error is notified under that name too.  (A
    record is appended when [e] has a message; when it has none, the
    iteration throws and no record is appended under any name.) *)
Theorem branch_failure_is_attributed_to_the_branch
    this done rest name condition trueStep falseStep input w b child env1 e env2 :
  let step := ConditionalStep.new name condition trueStep falseStep in
  let s := after this done (started this input w) in
  WorkflowEngine.steps this = done ++ step :: rest ->
  unbroken this done (started this input w) ->
  condition (env (entering this step s)) = (Normal b, env1) ->
  (if b then Some trueStep else falseStep) = Some child ->
  WorkflowStep.execute child env1 = (Throw e, env2) ->
  (convertible (heap (world env2)) e = true ->
   exists recorded,
     WorkflowContext.addError name e (clock (world env2)) (heap (world env2)) (ctx env2)
       = Normal (ctx (env recorded)) /\
     world (env recorded) = world env2 /\
     errors_of recorded =
       WorkflowContext.errors (ctx env2) ++ [errorRecord name e (clock (world env2))] /\
     WorkflowEngine.iteration this step s =
       (Normal (negb (WorkflowEngine.continueOnError this)),
        snd (WorkflowEngine.notifyObservers this (StepError name e) recorded))) /\
  (convertible (heap (world env2)) e = false ->
   WorkflowEngine.iteration this step s = (Throw TypeError, settled this step s) /\
   env (settled this step s) = env2) /\
  WorkflowEngine.execute this input w =
    conclude this (WorkflowEngine.loop this (step :: rest) s).
Proof.
  intros step s Hsteps Hdone Hcond Hchild Hthrow.
  assert (Hcall : call (WorkflowStep.execute step) (entering this step s) =
                  (Throw e, {| env := env2;
                               trace := trace (entering this step s);
                               console := console (entering this step s) |})).
  { unfold call. simpl. unfold ConditionalStep.execute. rewrite Hcond.
    destruct b; simpl in Hchild.
    - injection Hchild as ->. by rewrite Hthrow.
    - rewrite Hchild, Hthrow. reflexivity. }
  assert (Hout : outcome this step s = Throw e) by (unfold outcome; by rewrite Hcall).
  assert (Hset : env (settled this step s) = env2) by (unfold settled; by rewrite Hcall).
  split; [|split].
  - intros Hc. exists (noted name e (settled this step s)).
    unfold noted. cbn [env ctx world]. rewrite Hset.
    split; [by apply addError_convertible|]. split; [reflexivity|].
    split; [reflexivity|].
    rewrite <- Hset in Hc. rewrite (iteration_throw _ _ _ _ Hout Hc).
    unfold noted. by rewrite Hset.
  - intros Hc. split; [|exact Hset].
    rewrite <- Hset in Hc. by apply (iteration_abort _ _ _ e).
  - by apply execute_reaches.
Qed.

Lemma branch_failure_is_attributed_to_the_branch_witness :
  exists recorded,
    errors_of recorded = [errorRecord "branch" (VError "declined") 1000] /\
    WorkflowEngine.iteration Sample.branching Sample.branch
        (started Sample.branching VUndefined Sample.initial) =
      (Normal true,
       snd (WorkflowEngine.notifyObservers Sample.branching
              (StepError "branch" (VError "declined")) recorded)).
Proof.
  destruct (branch_failure_is_attributed_to_the_branch Sample.branching [] []
              "branch" (fun e => (Normal true, e)) Sample.child None
              VUndefined Sample.initial
              true Sample.child
              (env (entering Sample.branching Sample.branch
                      (started Sample.branching VUndefined Sample.initial)))
              (VError "declined")
              (env (entering Sample.branching Sample.branch
                      (started Sample.branching VUndefined Sample.initial))))
    as (Hrecorded & _ & _); [reflexivity | exact I | reflexivity..|].
  destruct (Hrecorded eq_refl) as (recorded & _ & _ & Herr & Hit).
  exists recorded. split; [exact Herr | exact Hit].
Defined.

(** C4, as the claim has it, fails: the run of an engine whose only step
    is the branch ["branch"], delegating to the throwing step ["child"],
    returns a context whose one error record names ["branch"], not
    ["child"]. *)
Lemma branch_failure_does_not_name_the_child :
  exists final r,
    WorkflowEngine.execute Sample.branching VUndefined Sample.initial =
      (Normal (ctx (env final)), final) /\
    WorkflowContext.errors (ctx (env final)) = [r] /\
    WorkflowError.step r = WorkflowStep.name Sample.branch /\
    WorkflowError.step r <> WorkflowStep.name Sample.child.
Proof.
  exists (snd (WorkflowEngine.execute Sample.branching VUndefined Sample.initial)),
         (errorRecord "branch" (VError "declined") 1000).
  split; [vm_compute; reflexivity|].
  split; [vm_compute; reflexivity|]. split; [reflexivity | discriminate].
Qed.

(** ** The context's operations *)

(** C5, as the code has it.  [complete()] sets [endTime] to the instant
    of the call whether or not it was set before, so that a second call
    leaves [endTime] as it was exactly when it is made at the same
    instant; [addError], the context's other operation, never changes
    [endTime]. *)
Theorem complete_overwrites_endTime :
  (forall now c,
     WorkflowContext.endTime (WorkflowContext.complete now c) = Some now) /\
  (forall first second c,
     WorkflowContext.endTime
       (WorkflowContext.complete second (WorkflowContext.complete first c)) =
     WorkflowContext.endTime (WorkflowContext.complete first c)
     <-> second = first) /\
  (forall step error now h c,
     match WorkflowContext.addError step error now h c with
     | Normal c' => WorkflowContext.endTime c' = WorkflowContext.endTime c
     | Throw _ => True
     end).
Proof.
  split; [reflexivity|]. split.
  - intros first second c. simpl. split; [congruence | by intros ->].
  - intros step error now h c. unfold WorkflowContext.addError.
    by destruct (WorkflowContext.messageOf h error).
Qed.

(** C5, as the claim has it, fails: a context completed at instant 1005
    and completed again at instant 1009 has its [endTime] changed. *)
Lemma second_complete_changes_endTime :
  let once := WorkflowContext.complete 1005 Sample.context in
  WorkflowContext.endTime once = Some 1005 /\
  WorkflowContext.endTime (WorkflowContext.complete 1009 once) = Some 1009 /\
  WorkflowContext.endTime (WorkflowContext.complete 1009 once) <>
  WorkflowContext.endTime once.
Proof. repeat split. discriminate. Qed.

(** C8, on the code.  [addError] is called with a failure that is no
    [Error] and has no conversion to a string: the object
    [{ toString: 5 }], at address 7 of the heap.  [String(error)] throws
    a [TypeError] and so does [addError]: no record is appended, and the
    context is as it was. *)
Lemma addError_throws_for_an_unprintable_failure :
  let s := {| env := {| ctx := Sample.context;
                        world := set_heap Demo.opaque_heap Sample.initial |};
              trace := []; console := [] |} in
  get_prop Demo.opaque_heap 7%nat "toString" = VNumber 5 /\
  ToString Demo.opaque_heap (VRef 7%nat) = Throw TypeError /\
  WorkflowContext.addError "A" (VRef 7%nat) 1000 Demo.opaque_heap Sample.context =
    Throw TypeError /\
  invoke_ctx (WorkflowContext.addError "A" (VRef 7%nat)) s = (Throw TypeError, s) /\
  errors_of s = [].
Proof. vm_compute. repeat split. Qed.

(** ** Runs of one engine *)

(** Without a [metadata] option the constructor makes the metadata
    object itself: a new, empty object, and the rest of the heap is as it
    was. *)
Lemma unseeded_metadata_is_fresh options w :
  WorkflowContextOptions.metadata options = None ->
  let c := fst (WorkflowContext.new options w) in
  let w' := snd (WorkflowContext.new options w) in
  (WorkflowContext.metadata c ∉ dom (heap w)) /\
  heap w' !! WorkflowContext.metadata c = Some ∅ /\
  forall l, l ∈ dom (heap w) -> heap w' !! l = heap w !! l.
Proof.
  intros Hmd. unfold WorkflowContext.new. rewrite Hmd.
  destruct (WorkflowContextOptions.workflowId options); simpl.
  all: split; [apply is_fresh|]; split; [apply lookup_insert_eq|].
  all: intros l Hl; apply lookup_insert_ne; intros <-; by apply is_fresh in Hl.
Qed.

(** C6, on the code.  An engine constructed with a [metadata] option (the
    caller's empty object, at address 0) and one step that sets
    [context.metadata.seen = true] is run twice.  The context of the
    second run has that same object as its [metadata], and at its
    construction [seen] already reads [true]. *)
Lemma seeded_metadata_is_shared_between_runs :
  let first := snd (WorkflowEngine.execute Sample.seeded VUndefined Sample.seeded_world) in
  let second := WorkflowEngine.start Sample.seeded VUndefined (world (env first)) in
  get_prop (heap Sample.seeded_world) 0%nat "seen" = VUndefined /\
  WorkflowContext.metadata (ctx (env first)) = 0%nat /\
  WorkflowContext.metadata (ctx (env second)) = 0%nat /\
  get_prop (heap (world (env second)))
           (WorkflowContext.metadata (ctx (env second))) "seen" = VBool true.
Proof. vm_compute. repeat split. Qed.

(** ** Observer failures *)

Lemma notifyObservers_from_app pre : forall post i n s,
  WorkflowEngine.notifyObservers_from i (pre ++ post) n s =
  WorkflowEngine.notifyObservers_from (length pre + i) post n
    (snd (WorkflowEngine.notifyObservers_from i pre n s)).
Proof.
  induction pre as [|o pre IH]; intros post i n s; [reflexivity|].
  rewrite <- app_comm_cons, !notifyObservers_from_cons, IH.
  simpl. by rewrite Nat.add_succ_r.
Qed.

Lemma call_agree {A} (f : Async A) s s' :
  agree s s' ->
  fst (call f s) = fst (call f s') /\ agree (snd (call f s)) (snd (call f s')).
Proof.
  intros [He Ht]. unfold call. rewrite He.
  destruct (f (env s')) as [r e]. by split.
Qed.

Lemma modify_ctx_agree f s s' :
  agree s s' -> agree (snd (modify_ctx f s)) (snd (modify_ctx f s')).
Proof. intros [He Ht]. split; simpl; by rewrite ?He, ?Ht. Qed.

Lemma noted_agree name e s s' :
  agree s s' -> agree (noted name e s) (noted name e s').
Proof. intros [He Ht]. split; simpl; by rewrite ?He, ?Ht. Qed.

Lemma record_agree ev s s' :
  agree s s' -> agree (snd (record ev s)) (snd (record ev s')).
Proof. intros [He Ht]. split; simpl; by rewrite ?He, ?Ht. Qed.

Section Similar.
Variables this this' : WorkflowEngine.t.
Hypothesis Hobservers :
  Forall2 similar (WorkflowEngine.observers this) (WorkflowEngine.observers this').
Hypothesis Hcontinue :
  WorkflowEngine.continueOnError this = WorkflowEngine.continueOnError this'.

Lemma notifyObservers_agree n s s' :
  agree s s' ->
  agree (snd (WorkflowEngine.notifyObservers this n s))
        (snd (WorkflowEngine.notifyObservers this' n s')).
Proof. by apply notifyObservers_from_agree. Qed.

Lemma entering_agree step s s' :
  agree s s' -> agree (entering this step s) (entering this' step s').
Proof.
  intros H. rewrite !entering_unfold.
  by apply record_agree, notifyObservers_agree, modify_ctx_agree.
Qed.

Lemma iteration_agree step s s' :
  agree s s' ->
  fst (WorkflowEngine.iteration this step s) =
    fst (WorkflowEngine.iteration this' step s') /\
  agree (snd (WorkflowEngine.iteration this step s))
        (snd (WorkflowEngine.iteration this' step s')).
Proof.
  intros H. rewrite !iteration_unfold.
  destruct (call_agree (WorkflowStep.execute step) _ _ (entering_agree step _ _ H))
    as [Hr Ha].
  destruct (call _ (entering this step s)) as [[u|e] s1],
           (call _ (entering this' step s')) as [[u'|e'] s1'];
    simpl in Hr, Ha; try discriminate; simpl.
  - split; [reflexivity|]. by apply notifyObservers_agree.
  - injection Hr as ->. rewrite (proj1 Ha).
    destruct (convertible (heap (world (env s1'))) e'); simpl.
    + rewrite Hcontinue. split; [reflexivity|].
      by apply notifyObservers_agree, noted_agree.
    + by split.
Qed.

Lemma loop_agree steps : forall s s',
  agree s s' ->
  fst (WorkflowEngine.loop this steps s) = fst (WorkflowEngine.loop this' steps s') /\
  agree (snd (WorkflowEngine.loop this steps s))
        (snd (WorkflowEngine.loop this' steps s')).
Proof.
  induction steps as [|step rest IH]; intros s s' H; [by split|].
  rewrite !loop_cons.
  destruct (iteration_agree step _ _ H) as [Hr Ha]. rewrite <- Hr.
  destruct (fst (WorkflowEngine.iteration this step s)) as [[|]|e]; simpl; auto.
Qed.

Lemma conclude_agree r r' :
  fst r = fst r' -> agree (snd r) (snd r') ->
  fst (conclude this r) = fst (conclude this' r') /\
  agree (snd (conclude this r)) (snd (conclude this' r')).
Proof.
  destruct r as [[u|e] s], r' as [[u'|e'] s']; simpl; intros Hr Ha;
    try discriminate.
  - assert (Hf : agree (finished this s) (finished this' s'))
      by (unfold finished; by apply notifyObservers_agree, modify_ctx_agree).
    split; [by rewrite (proj1 Hf) | exact Hf].
  - injection Hr as ->. by split.
Qed.
End Similar.

Lemma similar_calmed o : similar o (calmed o).
Proof.
  intros n. destruct o as [[f1|] [f2|] [f3|] [f4|] [f5|]].
  all: destruct n; simpl.
  all: first [apply None_Forall2 | apply Some_Forall2; by intros e].
Qed.

(** C7. Whatever the observers and the notification: [notifyObservers]
    ends normally, and every observer that has the callback is notified,
    in registration order, whether or not an earlier callback threw.
    When the callback of an observer throws [e], the engine writes one
    line with [e] to the console, leaves the environment (the context and
    its [errors] with it) as the callback left it, and goes on with the
    observers registered after it.  And a run with observers whose
    callbacks throw ends like the run in which the callbacks have the same
    effects and succeed: same completion, same returned context, same
    environment, same sequence of executions and notifications; such
    succeeding callbacks exist for every observer list. *)
Theorem observer_failures_are_contained :
  (forall this n s,
     WorkflowEngine.notifyObservers this n s =
       (Normal tt, snd (WorkflowEngine.notifyObservers this n s)) /\
     trace (snd (WorkflowEngine.notifyObservers this n s)) = trace s ++ fired this n) /\
  (forall this pre o post n s m e,
     WorkflowEngine.observers this = pre ++ o :: post ->
     method o n = Some m ->
     let reached := snd (WorkflowEngine.notifyObservers_from 0 pre n s) in
     fst (m (env reached)) = Throw e ->
     WorkflowEngine.notifyObservers this n s =
     WorkflowEngine.notifyObservers_from (S (length pre)) post n
       {| env := snd (m (env reached));
          trace := trace reached ++ [Notified (length pre) n];
          console :=
            console reached ++
            [("Error in workflow observer (" +:+ eventName n +:+ ")", e)] |}) /\
  (forall this observers' input w,
     Forall2 similar (WorkflowEngine.observers this) observers' ->
     fst (WorkflowEngine.execute this input w) =
       fst (WorkflowEngine.execute (with_observers observers' this) input w) /\
     agree (snd (WorkflowEngine.execute this input w))
           (snd (WorkflowEngine.execute (with_observers observers' this) input w))) /\
  (forall observers, Forall2 similar observers (map calmed observers)).
Proof.
  split; [|split; [|split]].
  - intros this n s. split; [apply notifyObservers_unfailing|apply notifyObservers_trace].
  - intros this pre o post n s m e Hobs Hm reached Hthrow.
    unfold WorkflowEngine.notifyObservers. rewrite Hobs.
    rewrite notifyObservers_from_app, notifyObservers_from_cons.
    rewrite Nat.add_0_r. fold reached.
    rewrite (notifyObserver_present _ _ _ _ _ Hm), Hthrow. reflexivity.
  - intros this observers' input w Hsim.
    set (this' := with_observers observers' this).
    rewrite !execute_unfold.
    change (WorkflowEngine.steps this') with (WorkflowEngine.steps this).
    assert (Hstart : agree (started this input w) (started this' input w)).
    { unfold started. apply (notifyObservers_agree this this' Hsim). by split. }
    destruct (loop_agree this this' Hsim eq_refl (WorkflowEngine.steps this) _ _ Hstart)
      as [Hr Ha].
    by apply (conclude_agree this this' Hsim).
  - induction observers as [|o obs IH]; constructor; [apply similar_calmed | exact IH].
Qed.

Lemma observer_failures_are_contained_witness :
  let this := Sample.engine true in
  let this' := with_observers (map calmed (WorkflowEngine.observers this)) this in
  fst (Sample.fail (VString "observer down")
         (env (WorkflowEngine.start this VUndefined Sample.initial))) =
    Throw (VString "observer down") /\
  fst (WorkflowEngine.execute this VUndefined Sample.initial) =
    fst (WorkflowEngine.execute this' VUndefined Sample.initial) /\
  agree (snd (WorkflowEngine.execute this VUndefined Sample.initial))
        (snd (WorkflowEngine.execute this' VUndefined Sample.initial)) /\
  console (snd (WorkflowEngine.execute this' VUndefined Sample.initial)) = [] /\
  length (console (snd (WorkflowEngine.execute this VUndefined Sample.initial))) = 3%nat.
Proof.
  intros this this'. split; [reflexivity|].
  destruct observer_failures_are_contained as (_ & _ & Hsame & Hcalm).
  destruct (Hsame this (map calmed (WorkflowEngine.observers this)) VUndefined
              Sample.initial (Hcalm _)) as [Hfst Hagree].
  split; [exact Hfst|]. split; [exact Hagree|]. split; reflexivity.
Defined.

(** ** The concurrency hint *)

(** The step loop reads the engine's observers and [continueOnError],
    and nothing else of it. *)
Lemma iteration_ext this this' step :
  WorkflowEngine.observers this = WorkflowEngine.observers this' ->
  WorkflowEngine.continueOnError this = WorkflowEngine.continueOnError this' ->
  WorkflowEngine.iteration this step = WorkflowEngine.iteration this' step.
Proof.
  intros Ho Hc.
  unfold WorkflowEngine.iteration, WorkflowEngine.attempt, WorkflowEngine.recover,
         WorkflowEngine.notifyObservers.
  by rewrite Ho, Hc.
Qed.

Lemma loop_ext this this' steps :
  WorkflowEngine.observers this = WorkflowEngine.observers this' ->
  WorkflowEngine.continueOnError this = WorkflowEngine.continueOnError this' ->
  WorkflowEngine.loop this steps = WorkflowEngine.loop this' steps.
Proof.
  intros Ho Hc. induction steps as [|step rest IH]; [reflexivity|].
  simpl. by rewrite IH, (iteration_ext this this' step Ho Hc).
Qed.

Lemma executed_iteration this step s :
  executed (trace (snd (WorkflowEngine.iteration this step s))) =
  executed (trace s) ++ [WorkflowStep.name step].
Proof.
  destruct (iteration_cases this step s)
    as [[H _]|[(e & H & Hc & _)|(e & H & Hc & _)]].
  - rewrite (trace_iteration_normal _ _ _ H).
    rewrite !executed_app, !executed_fired. reflexivity.
  - rewrite (trace_iteration_throw _ _ _ _ H Hc).
    rewrite !executed_app, !executed_fired. reflexivity.
  - rewrite (trace_iteration_abort _ _ _ _ H Hc). unfold cut.
    rewrite !executed_app, !executed_fired. reflexivity.
Qed.

Lemma executed_loop this steps : forall s,
  exists k,
    executed (trace (snd (WorkflowEngine.loop this steps s))) =
    executed (trace s) ++ take k (WorkflowStep.name <$> steps).
Proof.
  induction steps as [|step rest IH]; intros s.
  - exists 0%nat. simpl. by rewrite app_nil_r.
  - rewrite loop_cons.
    destruct (fst (WorkflowEngine.iteration this step s)) as [[|]|e].
    + exists 1%nat. simpl. rewrite executed_iteration. by rewrite take_0.
    + destruct (IH (snd (WorkflowEngine.iteration this step s))) as [k Hk].
      exists (S k). rewrite Hk, executed_iteration. simpl. by rewrite <- app_assoc.
    + exists 1%nat. simpl. rewrite executed_iteration. by rewrite take_0.
Qed.

Lemma executed_conclude this r :
  executed (trace (snd (conclude this r))) = executed (trace (snd r)).
Proof.
  destruct r as [[u|e] s]; simpl; [|reflexivity].
  by rewrite trace_finished, executed_app, executed_fired, app_nil_r.
Qed.

(** C9. Two engines built from the same options, steps and observers,
    but for [maxConcurrency], run alike on every input and world: the
    same completion, the same returned context, the same final state.
    And the steps executed are, in order, an initial segment of the
    registered ones, each invoked once the iteration before it is over. *)
Theorem maxConcurrency_is_inert options steps observers input w mc mc' :
  let engine mc :=
    WorkflowEngine.addObservers observers
      (WorkflowEngine.addSteps steps
         (WorkflowEngine.new (with_maxConcurrency mc options))) in
  WorkflowEngine.execute (engine mc) input w =
    WorkflowEngine.execute (engine mc') input w /\
  exists k,
    executed (trace (snd (WorkflowEngine.execute (engine mc) input w))) =
    take k (WorkflowStep.name <$> steps).
Proof.
  intros engine. split.
  - unfold WorkflowEngine.execute, WorkflowEngine.run, WorkflowEngine.notifyObservers.
    by rewrite (loop_ext (engine mc) (engine mc')).
  - rewrite execute_unfold, executed_conclude.
    destruct (executed_loop (engine mc) (WorkflowEngine.steps (engine mc))
                (started (engine mc) input w)) as [k Hk].
    exists k. rewrite Hk, trace_started, executed_fired. reflexivity.
Qed.

(** ** The duration-aggregating observer *)

(** C10, on the code.  The start times are kept under the string
    [workflowId + ":" + stepName], which two different pairs can share.
    A new observer hears [onStepStart] for step ["b:c"] of workflow
    ["a"], and nothing else; 250 ms later it hears [onStepComplete] for
    step ["c"] of workflow ["a:b"], a pair for which no [onStepStart] was
    recorded.  It does not return at its guard: it writes a duration of
    250 ms for ["c"] into the metadata of that context, and forgets the
    start time of the other pair. *)
Lemma colliding_keys_measure_a_step_never_started :
  let a := Sample.environment_of "a" in
  let ab := Sample.later 250 (Sample.environment_of "a:b") in
  let begun := perform PerformanceObserver.new (CallStepStart "b:c" a) in
  let run := PerformanceObserver.onStepComplete begun "c" ab in
  (WorkflowContext.workflowId (ctx a), "b:c") <> (WorkflowContext.workflowId (ctx ab), "c") /\
  PerformanceObserver.key (ctx a) "b:c" = PerformanceObserver.key (ctx ab) "c" /\
  PerformanceObserver.stepStartTimes begun = {[ "a:b:c" := 1000 ]} /\
  fst run = Normal tt /\
  PerformanceObserver.stepStartTimes (fst (snd run)) = ∅ /\
  fst (snd run) <> begun /\
  recordedDuration (heap (world ab)) (WorkflowContext.metadata (ctx ab)) "c" = VUndefined /\
  recordedDuration (heap (world (snd (snd run))))
                   (WorkflowContext.metadata (ctx ab)) "c" = VNumber 250 /\
  snd (snd run) <> ab.
Proof.
  split; [discriminate|]. split; [reflexivity|]. split; [reflexivity|].
  split; [reflexivity|]. split; [vm_compute; reflexivity|].
  split; [vm_compute; discriminate|]. split; [reflexivity|].
  split; [vm_compute; reflexivity|].
  intros H. apply (f_equal (fun e => recordedDuration (heap (world e))
                              (WorkflowContext.metadata (ctx e)) "c")) in H.
  vm_compute in H. discriminate.
Qed.

(** * Further properties of the code *)

(** ** Steps that were never started *)

Lemma onStepComplete_keys this stepName e k :
  PerformanceObserver.stepStartTimes this !! k = None ->
  PerformanceObserver.stepStartTimes
    (fst (snd (PerformanceObserver.onStepComplete this stepName e))) !! k = None.
Proof.
  intros H. unfold PerformanceObserver.onStepComplete.
  destruct (PerformanceObserver.unset _); [exact H|].
  destruct (PerformanceObserver.recordStepDuration _ _ _) as [[u|err] e']; [|exact H].
  simpl. by apply lookup_delete_None; right.
Qed.

Lemma unrecorded_after_calls calls : forall this k,
  PerformanceObserver.stepStartTimes this !! k = None ->
  Forall (fun c => startedKey c <> Some k) calls ->
  PerformanceObserver.stepStartTimes (fold_left perform calls this) !! k = None.
Proof.
  induction calls as [|c calls IH]; intros this k Hk Hcalls; [exact Hk|].
  inversion Hcalls as [|? ? Hc Hrest]; subst. simpl. apply IH; [|exact Hrest].
  destruct c as [n e|n e|n err e]; simpl in *.
  - rewrite lookup_insert_ne; [exact Hk | congruence].
  - by apply onStepComplete_keys.
  - by apply onStepComplete_keys.
Qed.

(** Where the identifiers hold no colon, the key tells the pair. *)
Lemma key_injective_at c id : forall id' n n',
  is_colon c = true ->
  colon_free id = true -> colon_free id' = true ->
  id +:+ String c n = id' +:+ String c n' -> id = id' /\ n = n'.
Proof.
  induction id as [|a id IH]; intros [|a' id'] n n' Hc Hid Hid' H;
    cbn [String.app colon_free] in H, Hid, Hid'.
  - by injection H as ->.
  - injection H as <- _. by rewrite Hc in Hid'.
  - injection H as -> _. by rewrite Hc in Hid.
  - injection H as <- H.
    apply andb_prop in Hid as [_ Hid]. apply andb_prop in Hid' as [_ Hid'].
    by destruct (IH id' n n' Hc Hid Hid' H) as [-> ->].
Qed.

Lemma key_injective id id' n n' :
  colon_free id = true -> colon_free id' = true ->
  id +:+ ":" +:+ n = id' +:+ ":" +:+ n' -> id = id' /\ n = n'.
Proof.
  apply (key_injective_at (Ascii.Ascii false true false true true true false false)).
  reflexivity.
Qed.

(** X20. When the observer holds no start time under the key made of the
    context's workflow id and the step name, [onStepComplete] returns
    with the observer's state and the environment (the context, its
    metadata and the heap behind it) exactly as they were, and so does
    [onStepError].  That is the case after any sequence of calls on a new
    observer in which no [onStepStart] recorded under that key; and,
    where the workflow ids hold no colon, after any sequence of calls in
    which no [onStepStart] was made for that workflow id and step
    name. *)
Theorem unrecorded_step_is_ignored :
  (forall this stepName e,
     PerformanceObserver.stepStartTimes this
       !! PerformanceObserver.key (ctx e) stepName = None ->
     PerformanceObserver.onStepComplete this stepName e = (Normal tt, (this, e)) /\
     forall error,
       PerformanceObserver.onStepError this stepName error e = (Normal tt, (this, e))) /\
  (forall calls stepName e,
     Forall (fun c => startedKey c <> Some (PerformanceObserver.key (ctx e) stepName))
            calls ->
     let this := fold_left perform calls PerformanceObserver.new in
     PerformanceObserver.onStepComplete this stepName e = (Normal tt, (this, e)) /\
     forall error,
       PerformanceObserver.onStepError this stepName error e = (Normal tt, (this, e))) /\
  (forall calls stepName e,
     colon_free (WorkflowContext.workflowId (ctx e)) = true ->
     Forall (fun c => colon_free (callId c) = true) calls ->
     Forall (fun c => startedPair c <> Some (WorkflowContext.workflowId (ctx e), stepName))
            calls ->
     let this := fold_left perform calls PerformanceObserver.new in
     PerformanceObserver.onStepComplete this stepName e = (Normal tt, (this, e)) /\
     forall error,
       PerformanceObserver.onStepError this stepName error e = (Normal tt, (this, e))).
Proof.
  assert (H : forall this stepName e,
     PerformanceObserver.stepStartTimes this
       !! PerformanceObserver.key (ctx e) stepName = None ->
     PerformanceObserver.onStepComplete this stepName e = (Normal tt, (this, e)) /\
     forall error,
       PerformanceObserver.onStepError this stepName error e = (Normal tt, (this, e))).
  { intros this stepName e Hk.
    unfold PerformanceObserver.onStepError, PerformanceObserver.onStepComplete.
    rewrite Hk. by split. }
  split; [exact H|]. split.
  - intros calls stepName e Hcalls this. apply H.
    by apply unrecorded_after_calls.
  - intros calls stepName e Hid Hids Hcalls this. apply H.
    apply unrecorded_after_calls; [done|].
    apply Forall_forall. intros c Hc.
    rewrite Forall_forall in Hids. rewrite Forall_forall in Hcalls.
    specialize (Hids c Hc). specialize (Hcalls c Hc).
    destruct c as [n e'|n e'|n err e']; simpl in *; try done.
    intros [= Hkey]. apply Hcalls.
    unfold PerformanceObserver.key in Hkey.
    by destruct (key_injective _ _ _ _ Hids Hid Hkey) as [-> ->].
Qed.

Lemma unrecorded_step_is_ignored_witness :
  let this := perform PerformanceObserver.new (CallStepStart "A" Sample.environment) in
  PerformanceObserver.stepStartTimes this !! "run-1:A" = Some 1000 /\
  PerformanceObserver.stepStartTimes this !! "run-1:B" = None /\
  PerformanceObserver.onStepComplete this "B" Sample.environment =
    (Normal tt, (this, Sample.environment)).
Proof.
  intros this. split; [reflexivity|]. split; [reflexivity|].
  apply (proj2 (proj2 unrecorded_step_is_ignored)
           [CallStepStart "A" Sample.environment] "B" Sample.environment).
  - reflexivity.
  - repeat constructor.
  - repeat constructor. discriminate.
Defined.

(** ** Relations kept along a run *)

Section Kept.
Variable R : Env -> Env -> Prop.
Context `{!PreOrder R}.
Hypothesis Hengine : engine_compatible R.

Lemma notifyObservers_from_keeps obs :
  Forall (fun o => forall n m, method o n = Some m -> keeps R m) obs ->
  forall i n s, R (env s) (env (snd (WorkflowEngine.notifyObservers_from i obs n s))).
Proof.
  induction 1 as [|o obs Ho _ IH]; intros i n s; [reflexivity|].
  rewrite notifyObservers_from_cons. etrans; [|apply IH].
  destruct (method o n) as [m|] eqn:Hm.
  - rewrite (notifyObserver_present _ _ _ _ _ Hm). simpl. by apply (Ho n).
  - by rewrite (notifyObserver_absent _ _ _ _ Hm).
Qed.

Variable this : WorkflowEngine.t.
Hypothesis Hobservers :
  Forall (fun o => forall n m, method o n = Some m -> keeps R m)
         (WorkflowEngine.observers this).

Lemma notifyObservers_keeps n s :
  R (env s) (env (snd (WorkflowEngine.notifyObservers this n s))).
Proof. by apply notifyObservers_from_keeps. Qed.

Lemma modify_ctx_keeps_current n s :
  R (env s)
    (env (snd (modify_ctx (fun _ => WorkflowContext.set_currentStepName n) s))).
Proof. rewrite modify_ctx_env. apply Hengine. Qed.

Lemma noted_keeps name e s :
  convertible (heap (world (env s))) e = true ->
  R (env s) (env (noted name e s)).
Proof.
  intros Hc. unfold noted. cbn [env].
  apply (proj1 (proj2 Hengine) (env s) name e). by apply addError_convertible.
Qed.

Lemma entering_keeps step s : R (env s) (env (entering this step s)).
Proof.
  rewrite entering_unfold. cbn [record snd env].
  etrans; [apply modify_ctx_keeps_current | apply notifyObservers_keeps].
Qed.

Lemma settled_keeps step s :
  keeps R (WorkflowStep.execute step) -> R (env s) (env (settled this step s)).
Proof.
  intros Hstep. etrans; [apply entering_keeps|].
  unfold settled, call. specialize (Hstep (env (entering this step s))).
  by destruct (WorkflowStep.execute step _).
Qed.

Lemma iteration_keeps step s :
  keeps R (WorkflowStep.execute step) ->
  R (env s) (env (snd (WorkflowEngine.iteration this step s))).
Proof.
  intros Hstep.
  destruct (iteration_cases this step s)
    as [[_ ->]|[(e & _ & Hc & ->)|(e & _ & _ & ->)]]; cbn [snd].
  - etrans; [by apply settled_keeps | apply notifyObservers_keeps].
  - etrans; [by apply settled_keeps|].
    etrans; [|apply notifyObservers_keeps]. by apply noted_keeps.
  - by apply settled_keeps.
Qed.

Lemma loop_keeps steps :
  Forall (fun step => keeps R (WorkflowStep.execute step)) steps ->
  forall s, R (env s) (env (snd (WorkflowEngine.loop this steps s))).
Proof.
  induction 1 as [|step rest Hstep _ IH]; intros s; [reflexivity|].
  rewrite loop_cons.
  destruct (fst (WorkflowEngine.iteration this step s)) as [[|]|e]; cbn [snd].
  - by apply iteration_keeps.
  - etrans; [by apply iteration_keeps | apply IH].
  - by apply iteration_keeps.
Qed.

Lemma finished_keeps s : R (env s) (env (finished this s)).
Proof.
  unfold finished. etrans; [|apply notifyObservers_keeps].
  rewrite modify_ctx_env. apply Hengine.
Qed.

Lemma conclude_keeps r : R (env (snd r)) (env (snd (conclude this r))).
Proof.
  destruct r as [[u|e] s]; simpl; [apply finished_keeps | reflexivity].
Qed.
End Kept.

(** ** The shape of a run *)

Lemma outcomes_cons_normal this step rest s :
  outcome this step s = Normal tt ->
  outcomes this (step :: rest) s =
  Normal tt :: outcomes this rest (snd (WorkflowEngine.iteration this step s)).
Proof.
  intros H. simpl. by rewrite H, (iteration_break_normal _ _ _ H).
Qed.

Lemma outcomes_cons_throw this step rest s e :
  outcome this step s = Throw e ->
  convertible (heap (world (env (settled this step s)))) e = true ->
  outcomes this (step :: rest) s =
  Throw e ::
  if WorkflowEngine.continueOnError this
  then outcomes this rest (snd (WorkflowEngine.iteration this step s))
  else [].
Proof.
  intros H Hc. simpl. rewrite H, (iteration_break_throw _ _ _ _ H Hc).
  by destruct (WorkflowEngine.continueOnError this).
Qed.

Lemma outcomes_cons_abort this step rest s e :
  outcome this step s = Throw e ->
  convertible (heap (world (env (settled this step s)))) e = false ->
  outcomes this (step :: rest) s = [Throw e].
Proof.
  intros H Hc. simpl. by rewrite H, (iteration_abort _ _ _ _ H Hc).
Qed.

Lemma loop_cons_normal this step rest s :
  outcome this step s = Normal tt ->
  WorkflowEngine.loop this (step :: rest) s =
  WorkflowEngine.loop this rest (snd (WorkflowEngine.iteration this step s)).
Proof. intros H. by rewrite loop_cons, (iteration_break_normal _ _ _ H). Qed.

Lemma loop_cons_throw this step rest s e :
  outcome this step s = Throw e ->
  convertible (heap (world (env (settled this step s)))) e = true ->
  WorkflowEngine.loop this (step :: rest) s =
  if WorkflowEngine.continueOnError this
  then WorkflowEngine.loop this rest (snd (WorkflowEngine.iteration this step s))
  else (Normal tt, snd (WorkflowEngine.iteration this step s)).
Proof.
  intros H Hc. rewrite loop_cons, (iteration_break_throw _ _ _ _ H Hc).
  by destruct (WorkflowEngine.continueOnError this).
Qed.

Lemma loop_cons_abort this step rest s e :
  outcome this step s = Throw e ->
  convertible (heap (world (env (settled this step s)))) e = false ->
  WorkflowEngine.loop this (step :: rest) s = (Throw TypeError, settled this step s).
Proof. intros H Hc. by rewrite loop_cons, (iteration_abort _ _ _ _ H Hc). Qed.

Lemma blocks_cons this step rest r rs :
  blocks this (step :: rest) (r :: rs) = block this step r ++ blocks this rest rs.
Proof. reflexivity. Qed.

Lemma blocks_nil_r this steps : blocks this steps [] = [].
Proof. by destruct steps. Qed.

(** How the loop ends, and what has happened by then: it ends normally
    after a block per step it got to, or it throws, the failure of the
    last step it got to having no message, and that step's block is cut
    short. *)
Lemma loop_trace this steps : forall s,
  match WorkflowEngine.loop this steps s with
  | (Normal _, s') =>
      trace s' = trace s ++ blocks this steps (outcomes this steps s)
  | (Throw t, s') =>
      t = TypeError /\
      exists rs e step,
        outcomes this steps s = rs ++ [Throw e] /\
        steps !! length rs = Some step /\
        convertible (heap (world (env s'))) e = false /\
        trace s' = trace s ++ blocks this steps rs ++ cut this step
  end.
Proof.
  induction steps as [|step rest IH]; intros s.
  - simpl. by rewrite app_nil_r.
  - destruct (iteration_cases this step s)
      as [[H Hit]|[(e & H & Hc & Hit)|(e & H & Hc & Hit)]].
    + rewrite (loop_cons_normal _ _ _ _ H), (outcomes_cons_normal _ _ _ _ H).
      specialize (IH (snd (WorkflowEngine.iteration this step s))).
      destruct (WorkflowEngine.loop this rest _) as [[u|t] s'].
      * rewrite IH, (trace_iteration_normal _ _ _ H), blocks_cons.
        unfold block. by rewrite <- !app_assoc.
      * destruct IH as (-> & rs & e & st & Hrs & Hst & Hconv & Htr).
        split; [reflexivity|]. exists (Normal tt :: rs), e, st.
        rewrite Hrs. split; [reflexivity|]. split; [exact Hst|]. split; [exact Hconv|].
        rewrite Htr, (trace_iteration_normal _ _ _ H), blocks_cons.
        unfold block. by rewrite <- !app_assoc.
    + rewrite (loop_cons_throw _ _ _ _ _ H Hc), (outcomes_cons_throw _ _ _ _ _ H Hc).
      destruct (WorkflowEngine.continueOnError this).
      * specialize (IH (snd (WorkflowEngine.iteration this step s))).
        destruct (WorkflowEngine.loop this rest _) as [[u|t] s'].
        -- rewrite IH, (trace_iteration_throw _ _ _ _ H Hc), blocks_cons.
           unfold block. by rewrite <- !app_assoc.
        -- destruct IH as (-> & rs & e' & st & Hrs & Hst & Hconv & Htr).
           split; [reflexivity|]. exists (Throw e :: rs), e', st.
           rewrite Hrs. split; [reflexivity|]. split; [exact Hst|].
           split; [exact Hconv|].
           rewrite Htr, (trace_iteration_throw _ _ _ _ H Hc), blocks_cons.
           unfold block. by rewrite <- !app_assoc.
      * rewrite (trace_iteration_throw _ _ _ _ H Hc), blocks_cons, blocks_nil_r.
        unfold block. by rewrite <- !app_assoc, app_nil_r.
    + rewrite (loop_cons_abort _ _ _ _ _ H Hc), (outcomes_cons_abort _ _ _ _ _ H Hc).
      split; [reflexivity|]. exists [], e, step.
      split; [reflexivity|]. split; [reflexivity|]. split; [exact Hc|].
      by rewrite trace_settled, trace_entering, blocks_nil_r.
Qed.

Lemma outcomes_length this steps : forall s,
  (length (outcomes this steps s) <= length steps)%nat.
Proof.
  induction steps as [|step rest IH]; intros s; [done|].
  simpl. destruct (fst (WorkflowEngine.iteration this step s)) as [[|]|e]; simpl;
    [lia | specialize (IH (snd (WorkflowEngine.iteration this step s))); lia | lia].
Qed.

(** The loop stops short of a step only on a failure: with
    [continueOnError] off, or else by throwing; and with
    [continueOnError] off, a failure is the last thing that happens. *)
Lemma outcomes_stop this steps : forall s,
  ((length (outcomes this steps s) < length steps)%nat ->
   (exists e, last (outcomes this steps s) = Some (Throw e)) /\
   (WorkflowEngine.continueOnError this = false \/
    fst (WorkflowEngine.loop this steps s) = Throw TypeError)) /\
  (WorkflowEngine.continueOnError this = false ->
   forall i e, outcomes this steps s !! i = Some (Throw e) ->
               S i = length (outcomes this steps s)).
Proof.
  induction steps as [|step rest IH]; intros s.
  - split; [simpl; lia | by intros _ i e H].
  - destruct (iteration_cases this step s)
      as [[H Hit]|[(e & H & Hc & Hit)|(e & H & Hc & Hit)]].
    + rewrite (outcomes_cons_normal _ _ _ _ H), (loop_cons_normal _ _ _ _ H).
      destruct (IH (snd (WorkflowEngine.iteration this step s))) as [IH1 IH2].
      split.
      * simpl. intros Hlt. destruct IH1 as [[e He] Hwhy]; [lia|].
        split; [|exact Hwhy]. exists e.
        destruct (outcomes this rest _) eqn:Ho; [discriminate|].
        rewrite last_cons, He. reflexivity.
      * intros Hstop [|i] e' Hi; [discriminate|]. simpl in *.
        f_equal. by eapply IH2.
    + rewrite (outcomes_cons_throw _ _ _ _ _ H Hc), (loop_cons_throw _ _ _ _ _ H Hc).
      destruct (WorkflowEngine.continueOnError this) eqn:Hcont.
      * destruct (IH (snd (WorkflowEngine.iteration this step s))) as [IH1 IH2].
        split; [|discriminate].
        simpl. intros Hlt. destruct IH1 as [[e' He] Hwhy]; [lia|].
        split.
        -- exists e'. destruct (outcomes this rest _) eqn:Ho; [discriminate|].
           rewrite last_cons, He. reflexivity.
        -- destruct Hwhy as [?|?]; [discriminate | by right].
      * split.
        -- intros _. split; [by exists e | by left].
        -- intros _ [|i] e' Hi; [reflexivity|discriminate].
    + rewrite (outcomes_cons_abort _ _ _ _ _ H Hc), (loop_cons_abort _ _ _ _ _ H Hc).
      split.
      * intros _. split; [by exists e | by right].
      * intros _ [|i] e' Hi; [reflexivity|discriminate].
Qed.

(** With [continueOnError] on, a loop that does not throw gets to every
    step. *)
Lemma outcomes_continue this steps s :
  WorkflowEngine.continueOnError this = true ->
  fst (WorkflowEngine.loop this steps s) = Normal tt ->
  length (outcomes this steps s) = length steps.
Proof.
  intros Hcont Hloop.
  pose proof (outcomes_length this steps s) as Hle.
  destruct (decide (length (outcomes this steps s) < length steps)%nat) as [Hlt|]; [|lia].
  destruct (proj1 (outcomes_stop this steps s) Hlt) as [_ [?|?]]; congruence.
Qed.

Lemma executed_blocks this steps : forall rs,
  executed (blocks this steps rs) = take (length rs) (WorkflowStep.name <$> steps).
Proof.
  induction steps as [|step rest IH]; intros [|r rs]; try reflexivity.
  unfold blocks in *. simpl. unfold block.
  rewrite !executed_app, executed_fired. simpl. rewrite IH.
  by destruct r; rewrite executed_fired.
Qed.

(** The trace of a run that returns. *)
Lemma execute_trace this input w c :
  fst (WorkflowEngine.execute this input w) = Normal c ->
  trace (snd (WorkflowEngine.execute this input w)) =
  fired this WorkflowStart ++
  blocks this (WorkflowEngine.steps this)
    (outcomes this (WorkflowEngine.steps this) (started this input w)) ++
  fired this WorkflowComplete.
Proof.
  intros Hret. destruct (execute_returns _ _ _ _ Hret) as (_ & s' & Hloop & ->).
  pose proof (loop_trace this (WorkflowEngine.steps this) (started this input w)) as Ht.
  rewrite Hloop in Ht.
  rewrite trace_finished, Ht, trace_started. by rewrite <- app_assoc.
Qed.



(** X2. With [continueOnError] on, a run that returns its context has
    executed every registered step, once and in registration order,
    whatever failed on the way. *)
Theorem continueOnError_runs_every_step this input w c :
  WorkflowEngine.continueOnError this = true ->
  fst (WorkflowEngine.execute this input w) = Normal c ->
  executed (trace (snd (WorkflowEngine.execute this input w))) =
  WorkflowStep.name <$> WorkflowEngine.steps this.
Proof.
  intros Hc Hret.
  rewrite (execute_trace _ _ _ _ Hret), !executed_app, !executed_fired, executed_blocks.
  destruct (execute_returns _ _ _ _ Hret) as (_ & s' & Hloop & _).
  rewrite outcomes_continue; [|done|by rewrite Hloop].
  simpl. rewrite app_nil_r.
  rewrite <- (length_fmap WorkflowStep.name). apply firstn_all.
Qed.

Lemma continueOnError_runs_every_step_witness :
  executed (trace (snd (WorkflowEngine.execute (Demo.engine true) VUndefined Sample.initial)))
  = ["slow"; "B"; "C"].
Proof.
  apply (continueOnError_runs_every_step (Demo.engine true) VUndefined Sample.initial
           (ctx (env (snd (WorkflowEngine.execute (Demo.engine true) VUndefined
                             Sample.initial))))).
  - reflexivity.
  - vm_compute. reflexivity.
Defined.

(** ** Error records and step failures *)

Lemma failures_cons_normal step rest u rs :
  failures (step :: rest) (Normal u :: rs) = failures rest rs.
Proof. reflexivity. Qed.

Lemma failures_cons_throw step rest e rs :
  failures (step :: rest) (Throw e :: rs) = (WorkflowStep.name step, e) :: failures rest rs.
Proof. reflexivity. Qed.

Lemma failures_nil_r steps : failures steps [] = [].
Proof. by destruct steps. Qed.

(** A loop that ends normally has appended one record per failure. *)
Lemma loop_errors this steps :
  Forall (observer_preserves WorkflowContext.errors) (WorkflowEngine.observers this) ->
  Forall (fun step => preserves WorkflowContext.errors (WorkflowStep.execute step)) steps ->
  forall s s',
    WorkflowEngine.loop this steps s = (Normal tt, s') ->
    exists recs,
      errors_of s' = errors_of s ++ recs /\
      Forall2 (fun r f => exists now, r = errorRecord f.1 f.2 now)
              recs (failures steps (outcomes this steps s)).
Proof.
  intros Hobs. induction 1 as [|step rest Hstep _ IH]; intros s s' Hloop.
  - injection Hloop as <-. exists []. simpl. rewrite app_nil_r. by split.
  - destruct (iteration_cases this step s)
      as [[H Hit]|[(e & H & Hc & Hit)|(e & H & Hc & Hit)]].
    + rewrite (loop_cons_normal _ _ _ _ H) in Hloop.
      rewrite (outcomes_cons_normal _ _ _ _ H).
      destruct (IH _ _ Hloop) as (recs & He & Hf).
      exists recs. rewrite He, (errors_iteration_normal _ _ _ Hobs Hstep H).
      by rewrite failures_cons_normal.
    + rewrite (loop_cons_throw _ _ _ _ _ H Hc) in Hloop.
      rewrite (outcomes_cons_throw _ _ _ _ _ H Hc), failures_cons_throw.
      destruct (WorkflowEngine.continueOnError this).
      * destruct (IH _ _ Hloop) as (recs & He & Hf).
        eexists (_ :: recs). rewrite He, (errors_iteration_throw _ _ _ _ Hobs Hstep H Hc).
        rewrite <- app_assoc. split; [reflexivity|].
        constructor; [by eexists | exact Hf].
      * injection Hloop as <-. eexists [_].
        rewrite (errors_iteration_throw _ _ _ _ Hobs Hstep H Hc).
        split; [reflexivity|]. rewrite failures_nil_r.
        constructor; [by eexists | constructor].
    + by rewrite (loop_cons_abort _ _ _ _ _ H Hc) in Hloop.
Qed.

Lemma respected_errors this :
  respected this ->
  Forall (observer_preserves WorkflowContext.errors) (WorkflowEngine.observers this) /\
  Forall (fun step => preserves WorkflowContext.errors (WorkflowStep.execute step))
         (WorkflowEngine.steps this).
Proof.
  intros [Hsteps Hobs]. split.
  - eapply Forall_impl; [exact Hobs|]. intros o Ho n m Hm e.
    specialize (Ho n m Hm e). unfold engine_fields in Ho. congruence.
  - eapply Forall_impl; [exact Hsteps|]. intros step Hstep e.
    specialize (Hstep e). unfold engine_fields in Hstep. congruence.
Qed.

Lemma execute_errors this input w c :
  respected this ->
  fst (WorkflowEngine.execute this input w) = Normal c ->
  Forall2 (fun r f => exists now, r = errorRecord f.1 f.2 now)
    (WorkflowContext.errors c)
    (failures (WorkflowEngine.steps this)
       (outcomes this (WorkflowEngine.steps this) (started this input w))).
Proof.
  intros Hresp Hret. destruct (respected_errors _ Hresp) as [Hobs Hsteps].
  destruct (execute_returns _ _ _ _ Hret) as (-> & s' & Hloop & ->).
  fold (errors_of (finished this s')).
  rewrite errors_finished by done.
  destruct (loop_errors this _ Hobs Hsteps _ _ Hloop) as (recs & He & Hf).
  rewrite He, errors_started by done. exact Hf.
Qed.

(** With [continueOnError] off, either no step failed, or exactly the
    last step executed did. *)
Lemma failures_stop this steps : forall s,
  WorkflowEngine.continueOnError this = false ->
  let rs := outcomes this steps s in
  (Forall (fun r => r = Normal tt) rs /\ failures steps rs = []) \/
  (exists step e,
     steps !! pred (length rs) = Some step /\
     last rs = Some (Throw e) /\
     failures steps rs = [(WorkflowStep.name step, e)]).
Proof.
  induction steps as [|step rest IH]; intros s Hstop; [by left|].
  cbn zeta. destruct (iteration_cases this step s)
    as [[H Hit]|[(e & H & Hc & Hit)|(e & H & Hc & Hit)]].
  - rewrite (outcomes_cons_normal _ _ _ _ H), failures_cons_normal.
    destruct (IH (snd (WorkflowEngine.iteration this step s)) Hstop)
      as [[Hall Hf]|(st & e & Hst & Hlast & Hf)].
    + left. split; [by constructor | exact Hf].
    + right. exists st, e.
      destruct (outcomes this rest _) as [|r rs] eqn:Ho; [discriminate|].
      split; [exact Hst|]. split; [|exact Hf].
      by rewrite last_cons, Hlast.
  - rewrite (outcomes_cons_throw _ _ _ _ _ H Hc), Hstop, failures_cons_throw,
            failures_nil_r.
    right. by exists step, e.
  - rewrite (outcomes_cons_abort _ _ _ _ _ H Hc), failures_cons_throw, failures_nil_r.
    right. by exists step, e.
Qed.

(** X3. When the steps and observers leave the engine's fields of the
    context alone, the error records of the returned context are the
    failures of the run, one record per step that threw, in the order the
    steps ran, each with the step's name and the value thrown as
    [details]. *)
Theorem errors_are_the_failures_of_the_run this input w c :
  respected this ->
  fst (WorkflowEngine.execute this input w) = Normal c ->
  Forall2 (fun r f => exists now, r = errorRecord f.1 f.2 now)
    (WorkflowContext.errors c)
    (failures (WorkflowEngine.steps this)
       (outcomes this (WorkflowEngine.steps this) (started this input w))).
Proof. apply execute_errors. Qed.

Lemma demo_engine_respected b : respected (Demo.engine b).
Proof.
  split.
  - repeat constructor.
  - apply sample_observers_preserve.
    repeat apply List.Forall_cons; try apply List.Forall_nil;
      repeat first [apply list_elem_of_here | apply list_elem_of_further].
Defined.

Lemma demo_engine_returns b :
  fst (WorkflowEngine.execute (Demo.engine b) VUndefined Sample.initial) =
  Normal (ctx (env (snd (WorkflowEngine.execute (Demo.engine b) VUndefined
                           Sample.initial)))).
Proof. destruct b; vm_compute; reflexivity. Defined.

Lemma errors_are_the_failures_of_the_run_witness :
  failures (WorkflowEngine.steps (Demo.engine true))
    (outcomes (Demo.engine true) (WorkflowEngine.steps (Demo.engine true))
       (started (Demo.engine true) VUndefined Sample.initial)) =
    [("B", VError "boom")] /\
  Forall2 (fun r f => exists now, r = errorRecord f.1 f.2 now)
    (WorkflowContext.errors
       (ctx (env (snd (WorkflowEngine.execute (Demo.engine true) VUndefined Sample.initial)))))
    [("B", VError "boom")].
Proof.
  split; [reflexivity|].
  exact (errors_are_the_failures_of_the_run (Demo.engine true) VUndefined Sample.initial
           _ (demo_engine_respected true) (demo_engine_returns true)).
Defined.

(** X4. With [continueOnError] off (and the engine's fields left alone),
    the returned context has at most one error record: none when every
    step executed succeeded, and otherwise the record of the last step
    executed, after which no further step ran. *)
Theorem stop_on_error_leaves_at_most_one_record this input w c :
  respected this ->
  WorkflowEngine.continueOnError this = false ->
  fst (WorkflowEngine.execute this input w) = Normal c ->
  let rs := outcomes this (WorkflowEngine.steps this) (started this input w) in
  let errors := WorkflowContext.errors c in
  (Forall (fun r => r = Normal tt) rs /\ errors = []) \/
  (exists step e now,
     WorkflowEngine.steps this !! pred (length rs) = Some step /\
     last rs = Some (Throw e) /\
     errors = [errorRecord (WorkflowStep.name step) e now]).
Proof.
  intros Hresp Hstop Hret rs errors.
  pose proof (execute_errors this input w c Hresp Hret) as Hf. fold rs errors in Hf.
  destruct (failures_stop this (WorkflowEngine.steps this) (started this input w) Hstop)
    as [[Hall Hnone]|(step & e & Hstep & Hlast & Hone)]; fold rs in Hf.
  - left. split; [exact Hall|].
    fold rs in Hnone. rewrite Hnone in Hf. by inversion Hf.
  - right. fold rs in Hone. rewrite Hone in Hf.
    inversion Hf as [|r f recs fs [now Hr] Hrest]; subst.
    inversion Hrest; subst. exists step, e, now. by repeat split.
Qed.

Lemma stop_on_error_leaves_at_most_one_record_witness :
  exists now,
    WorkflowContext.errors
      (ctx (env (snd (WorkflowEngine.execute (Demo.engine false) VUndefined Sample.initial))))
    = [errorRecord "B" (VError "boom") now].
Proof.
  destruct (stop_on_error_leaves_at_most_one_record (Demo.engine false) VUndefined
              Sample.initial _ (demo_engine_respected false) eq_refl
              (demo_engine_returns false))
    as [[Hall _]|(step & e & now & Hstep & Hlast & Herr)].
  - exfalso.
    change (Forall (fun r => r = Normal tt) [Normal tt; @Throw unit (VError "boom")])
      in Hall.
    apply Forall_cons in Hall as [_ Hall]. apply Forall_cons in Hall as [Hb _].
    discriminate.
  - exists now.
    change (Some Sample.B = Some step) in Hstep.
    change (Some (@Throw unit (VError "boom")) = Some (Throw e)) in Hlast.
    injection Hstep as <-. injection Hlast as <-. exact Herr.
Defined.

(** When no step fails, the loop gets to every step and ends
    normally. *)
Lemma loop_all_normal this steps : forall s,
  Forall (fun r => r = Normal tt) (outcomes this steps s) ->
  fst (WorkflowEngine.loop this steps s) = Normal tt /\
  outcomes this steps s = replicate (length steps) (Normal tt).
Proof.
  induction steps as [|step rest IH]; intros s Hall; [by split|].
  assert (H : outcome this step s = Normal tt).
  { simpl in Hall. by apply Forall_cons in Hall as [-> _]. }
  rewrite (outcomes_cons_normal _ _ _ _ H) in Hall |- *.
  rewrite (loop_cons_normal _ _ _ _ H).
  apply Forall_cons in Hall as [_ Hall].
  destruct (IH _ Hall) as [Hloop Hrs]. split; [exact Hloop|].
  simpl. by rewrite Hrs.
Qed.

(** X5. When no step executed fails, every registered step is executed,
    for each of them step-start and step-complete are notified once, in
    registration order, no step-error ever; and (the engine's fields left
    alone) the returned context has no error record and reports
    [successful]. *)
Theorem run_without_failure this input w :
  let rs := outcomes this (WorkflowEngine.steps this) (started this input w) in
  Forall (fun r => r = Normal tt) rs ->
  trace (snd (WorkflowEngine.execute this input w)) =
    fired this WorkflowStart ++
    concat ((fun step => block this step (Normal tt)) <$> WorkflowEngine.steps this) ++
    fired this WorkflowComplete /\
  (respected this ->
   WorkflowContext.errors (ctx (env (snd (WorkflowEngine.execute this input w)))) = [] /\
   WorkflowContext.successful (ctx (env (snd (WorkflowEngine.execute this input w)))) = true).
Proof.
  intros rs Hall.
  destruct (loop_all_normal this _ _ Hall) as [Hloop Hrs]. fold rs in Hrs.
  assert (Hret : fst (WorkflowEngine.execute this input w) =
                 Normal (ctx (env (snd (WorkflowEngine.execute this input w))))).
  { rewrite execute_unfold.
    destruct (WorkflowEngine.loop this _ _) as [[u|e] s']; [reflexivity|discriminate]. }
  assert (Hnone : failures (WorkflowEngine.steps this) rs = []).
  { rewrite Hrs. clear. induction (WorkflowEngine.steps this) as [|st l IH]; [done|].
    simpl. by rewrite failures_cons_normal. }
  split.
  - rewrite (execute_trace _ _ _ _ Hret). fold rs. rewrite Hrs. do 2 f_equal.
    clear. unfold blocks.
    induction (WorkflowEngine.steps this) as [|st l IH]; [done|].
    simpl. by rewrite IH.
  - intros Hresp. pose proof (execute_errors this input w _ Hresp Hret) as Hf.
    fold rs in Hf. rewrite Hnone in Hf. inversion Hf as [Herr|].
    split; [reflexivity|]. unfold WorkflowContext.successful. by rewrite <- Herr.
Qed.

Lemma demo_smooth_respected : respected Demo.smooth.
Proof.
  split.
  - repeat constructor.
  - apply sample_observers_preserve.
    repeat apply List.Forall_cons; try apply List.Forall_nil;
      repeat first [apply list_elem_of_here | apply list_elem_of_further].
Defined.

Lemma run_without_failure_witness :
  executed (trace (snd (WorkflowEngine.execute Demo.smooth VUndefined Sample.initial))) =
    ["A"; "slow"; "C"] /\
  WorkflowContext.successful
    (ctx (env (snd (WorkflowEngine.execute Demo.smooth VUndefined Sample.initial)))) = true.
Proof.
  destruct (run_without_failure Demo.smooth VUndefined Sample.initial) as [Htrace Hctx].
  - repeat constructor.
  - split; [rewrite Htrace; reflexivity|].
    exact (proj2 (Hctx demo_smooth_respected)).
Defined.

(** ** Time and identity *)

#[local] Instance time_goes_on_preorder : PreOrder time_goes_on.
Proof.
  split.
  - intros e. split; [lia|reflexivity].
  - intros e1 e2 e3 [H1 H1'] [H2 H2']. split; [lia|congruence].
Qed.

Lemma time_goes_on_engine : engine_compatible time_goes_on.
Proof.
  split; [|split]; intros; split; simpl; try lia; try reflexivity.
  by apply addError_Normal in H as [_ ->].
Qed.

#[local] Instance same_identity_preorder : PreOrder same_identity.
Proof.
  split.
  - by intros e.
  - intros e1 e2 e3 [H1 H1'] [H2 H2']. split; congruence.
Qed.

Lemma same_identity_engine : engine_compatible same_identity.
Proof.
  split; [|split]; intros; split; simpl; try reflexivity.
  all: by apply addError_Normal in H as [_ ->].
Qed.

#[local] Instance errors_grow_preorder : PreOrder errors_grow.
Proof.
  split.
  - intros e. unfold errors_grow. reflexivity.
  - intros e1 e2 e3 H1 H2. unfold errors_grow in *. by etrans.
Qed.

Lemma errors_grow_engine : engine_compatible errors_grow.
Proof.
  split; [|split]; intros; unfold errors_grow; simpl; try done.
  apply addError_Normal in H as [_ ->]. by apply prefix_app_r.
Qed.

Lemma new_startTime options w :
  WorkflowContext.startTime (fst (WorkflowContext.new options w)) =
  clock (snd (WorkflowContext.new options w)).
Proof.
  unfold WorkflowContext.new.
  by destruct (WorkflowContextOptions.workflowId options),
              (WorkflowContextOptions.metadata options).
Qed.

Lemma new_identity options w :
  WorkflowContext.workflowName (fst (WorkflowContext.new options w)) =
    WorkflowContextOptions.workflowName options /\
  forall id, WorkflowContextOptions.workflowId options = Some id ->
             WorkflowContext.workflowId (fst (WorkflowContext.new options w)) = id.
Proof.
  unfold WorkflowContext.new.
  destruct (WorkflowContextOptions.workflowId options),
           (WorkflowContextOptions.metadata options); simpl; split; congruence.
Qed.

(** From the construction of the context to the end of the loop, and to
    the end of [execute], however it ends. *)
Lemma execute_keeps (R : Env -> Env -> Prop) `{!PreOrder R} this input w :
  engine_compatible R -> kept R this ->
  R (env (WorkflowEngine.start this input w))
    (env (snd (WorkflowEngine.loop this (WorkflowEngine.steps this)
                 (started this input w)))) /\
  R (env (WorkflowEngine.start this input w))
    (env (snd (WorkflowEngine.execute this input w))).
Proof.
  intros Heng [Hsteps Hobs].
  assert (Hloop : R (env (WorkflowEngine.start this input w))
    (env (snd (WorkflowEngine.loop this (WorkflowEngine.steps this)
                 (started this input w))))).
  { transitivity (env (started this input w)).
    - unfold started. apply (notifyObservers_keeps R this Hobs).
    - apply (loop_keeps R Heng this Hobs _ Hsteps). }
  split; [exact Hloop|].
  rewrite execute_unfold.
  etrans; [exact Hloop | apply (conclude_keeps R Heng this Hobs)].
Qed.

(** X6. When user code never turns the clock back nor writes
    [startTime], and no callback of an observer writes [endTime], the
    context [execute] returns is completed: its [endTime] is the instant
    at which the loop was left, not before its [startTime], and
    [durationMs] is their difference, defined and not negative.  This
    holds with no step at all as well, and whatever the steps do to
    [errors], [currentStepName] or [endTime]. *)
Theorem returned_context_is_completed this input w c :
  Forall (observer_preserves WorkflowContext.endTime) (WorkflowEngine.observers this) ->
  kept time_goes_on this ->
  fst (WorkflowEngine.execute this input w) = Normal c ->
  let left := snd (WorkflowEngine.loop this (WorkflowEngine.steps this)
                     (started this input w)) in
  WorkflowContext.endTime c = Some (clock (world (env left))) /\
  WorkflowContext.startTime c <= clock (world (env left)) /\
  WorkflowContext.durationMs c =
    Some (clock (world (env left)) - WorkflowContext.startTime c) /\
  exists d, WorkflowContext.durationMs c = Some d /\ 0 <= d.
Proof.
  intros Hend Hkept Hret left.
  destruct (execute_keeps time_goes_on this input w time_goes_on_engine Hkept)
    as [[Hclock _] [_ Hstart]].
  fold left in Hclock.
  destruct (execute_returns _ _ _ _ Hret) as (Hc & s' & Hloop & Hfin).
  rewrite <- Hc in Hstart.
  rewrite start_env in Hclock, Hstart. cbn [ctx world] in Hclock, Hstart.
  rewrite new_startTime in Hstart.
  assert (He : WorkflowContext.endTime c = Some (clock (world (env left)))).
  { rewrite Hc, Hfin. unfold finished.
    rewrite notifyObservers_preserves by done.
    unfold left. by rewrite Hloop. }
  split; [exact He|]. split; [lia|].
  unfold WorkflowContext.durationMs. rewrite He.
  split; [reflexivity|]. eexists. split; [reflexivity|]. lia.
Qed.

Lemma demo_wary_time : kept time_goes_on Demo.wary.
Proof.
  split.
  - repeat apply List.Forall_cons; try apply List.Forall_nil.
    all: intros e; split; simpl; lia.
  - apply List.Forall_nil.
Defined.

Lemma demo_engine_time b : kept time_goes_on (Demo.engine b).
Proof.
  split.
  - repeat apply List.Forall_cons; try apply List.Forall_nil.
    all: intros e; split; simpl; lia.
  - repeat apply List.Forall_cons; try apply List.Forall_nil.
    all: intros n m; apply sample_observer_keeps_time.
    all: repeat first [apply list_elem_of_here | apply list_elem_of_further].
Defined.

Lemma returned_context_is_completed_witness :
  WorkflowContext.durationMs
    (ctx (env (snd (WorkflowEngine.execute (Demo.engine true) VUndefined Sample.initial))))
  = Some 40 /\
  WorkflowContext.durationMs
    (ctx (env (snd (WorkflowEngine.execute Demo.wary VUndefined Sample.initial))))
  = Some 0.
Proof.
  split.
  - destruct (returned_context_is_completed (Demo.engine true) VUndefined Sample.initial
                _ ltac:(sample_observers) (demo_engine_time true)
                (demo_engine_returns true))
      as (_ & _ & Hd & _).
    rewrite Hd. reflexivity.
  - destruct (returned_context_is_completed Demo.wary VUndefined Sample.initial
                (ctx (env (snd (WorkflowEngine.execute Demo.wary VUndefined
                                  Sample.initial))))
                ltac:(apply List.Forall_nil) demo_wary_time
                ltac:(vm_compute; reflexivity))
      as (_ & _ & Hd & _).
    rewrite Hd. reflexivity.
Defined.

(** X7. When user code leaves [workflowId] and [workflowName] alone (they
    are [readonly]), the returned context bears the name the engine was
    constructed with and, when one was given, its identifier. *)
Theorem returned_context_keeps_its_identity this input w :
  kept same_identity this ->
  let c := ctx (env (snd (WorkflowEngine.execute this input w))) in
  WorkflowContext.workflowName c =
    WorkflowEngineOptions.workflowName (WorkflowEngine.options this) /\
  forall id,
    WorkflowEngineOptions.workflowId (WorkflowEngine.options this) = Some id ->
    WorkflowContext.workflowId c = id.
Proof.
  intros Hkept c.
  destruct (execute_keeps same_identity this input w same_identity_engine Hkept)
    as [_ [Hid Hname]].
  fold c in Hid, Hname. rewrite start_env in Hid, Hname. cbn [ctx] in Hid, Hname.
  destruct (new_identity (WorkflowEngine.contextOptions this input) w) as [Hn Hi].
  split; [by rewrite Hname, Hn|].
  intros id Hsome. rewrite Hid. by apply Hi.
Qed.

Lemma returned_context_keeps_its_identity_witness :
  WorkflowContext.workflowId
    (ctx (env (snd (WorkflowEngine.execute Demo.named VUndefined Sample.initial))))
  = "run-7".
Proof.
  apply (returned_context_keeps_its_identity Demo.named VUndefined Sample.initial);
    [|reflexivity].
  split.
  - repeat apply List.Forall_cons; try apply List.Forall_nil.
    intros e. split; reflexivity.
  - apply List.Forall_nil.
Defined.

(** X8. When user code only ever appends to [errors] (a step may call
    [context.addError] itself), the records present when the loop reaches
    a step are still there, in place, in the returned context: [errors]
    never shrinks and is never reordered by the engine. *)
Theorem errors_never_shrink this done rest input w :
  kept errors_grow this ->
  WorkflowEngine.steps this = done ++ rest ->
  unbroken this done (started this input w) ->
  errors_of (after this done (started this input w)) `prefix_of`
  WorkflowContext.errors (ctx (env (snd (WorkflowEngine.execute this input w)))).
Proof.
  intros [Hsteps Hobs] Hsplit Hdone.
  rewrite execute_unfold.
  rewrite Hsplit, loop_app by done.
  rewrite Hsplit in Hsteps. apply Forall_app in Hsteps as [_ Hrest].
  change (errors_grow (env (after this done (started this input w)))
            (env (snd (conclude this
                    (WorkflowEngine.loop this rest
                       (after this done (started this input w))))))).
  transitivity
    (env (snd (WorkflowEngine.loop this rest (after this done (started this input w))))).
  - apply (loop_keeps errors_grow errors_grow_engine this Hobs _ Hrest).
  - apply (conclude_keeps errors_grow errors_grow_engine this Hobs).
Qed.

Lemma errors_never_shrink_witness :
  errors_of (after Demo.wary [BasicStep.new "warn" Demo.warn]
               (started Demo.wary VUndefined Sample.initial)) =
    [errorRecord "warn" (VString "careful") 1000] /\
  [errorRecord "warn" (VString "careful") 1000] `prefix_of`
  WorkflowContext.errors
    (ctx (env (snd (WorkflowEngine.execute Demo.wary VUndefined Sample.initial)))) /\
  length (WorkflowContext.errors
    (ctx (env (snd (WorkflowEngine.execute Demo.wary VUndefined Sample.initial))))) = 2%nat.
Proof.
  split; [reflexivity|]. split; [|reflexivity].
  apply (errors_never_shrink Demo.wary [BasicStep.new "warn" Demo.warn] [Sample.B]
           VUndefined Sample.initial).
  - split.
    + repeat apply List.Forall_cons; try apply List.Forall_nil.
      * intros e. unfold errors_grow. simpl. by apply prefix_app_r.
      * intros e. unfold errors_grow. reflexivity.
    + apply List.Forall_nil.
  - reflexivity.
  - repeat split.
Defined.

(** ** The context by itself *)

Lemma addErrors_cons step error now h calls c :
  addErrors ((step, error, now, h) :: calls) c =
  addErrors calls
    (if convertible h error
     then WorkflowContext.set_errors
            (WorkflowContext.errors c ++ [errorRecord step error now]) c
     else c).
Proof.
  unfold addErrors. cbn [fold_left].
  destruct (convertible h error) eqn:Hc.
  - by rewrite (addError_convertible _ _ _ _ _ Hc).
  - by rewrite (addError_unconvertible _ _ _ _ _ Hc).
Qed.


Lemma addErrors_rest calls : forall c,
  WorkflowContext.endTime (addErrors calls c) = WorkflowContext.endTime c /\
  WorkflowContext.startTime (addErrors calls c) = WorkflowContext.startTime c /\
  WorkflowContext.currentStepName (addErrors calls c) = WorkflowContext.currentStepName c /\
  WorkflowContext.result (addErrors calls c) = WorkflowContext.result c /\
  WorkflowContext.metadata (addErrors calls c) = WorkflowContext.metadata c.
Proof.
  induction calls as [|[[[step error] now] h] calls IH]; intros c; [done|].
  rewrite addErrors_cons.
  destruct (IH (if convertible h error
                then WorkflowContext.set_errors
                       (WorkflowContext.errors c ++ [errorRecord step error now]) c
                else c))
    as (H1 & H2 & H3 & H4 & H5).
  rewrite H1, H2, H3, H4, H5. by destruct (convertible h error).
Qed.



Lemma new_clock options w : clock (snd (WorkflowContext.new options w)) = clock w.
Proof.
  unfold WorkflowContext.new.
  by destruct (WorkflowContextOptions.workflowId options),
              (WorkflowContextOptions.metadata options).
Qed.

(** X10. A context fresh from its constructor has no duration and
    reports [successful]; completed at instant [now] its duration is
    [now] less the instant of its construction; completed again, the
    duration is counted to the later call, the earlier one is forgotten;
    and completing does not change what [successful] says, also after
    errors. *)
Theorem duration_runs_from_construction_to_last_complete options w :
  let c := fst (WorkflowContext.new options w) in
  WorkflowContext.durationMs c = None /\
  WorkflowContext.successful c = true /\
  (forall now, WorkflowContext.durationMs (WorkflowContext.complete now c) =
               Some (now - clock w)) /\
  (forall first now calls,
     WorkflowContext.durationMs
       (WorkflowContext.complete now
          (addErrors calls (WorkflowContext.complete first c))) =
     Some (now - clock w)) /\
  (forall now c', WorkflowContext.successful (WorkflowContext.complete now c') =
                  WorkflowContext.successful c').
Proof.
  intros c.
  assert (Hstart : WorkflowContext.startTime c = clock w)
    by (unfold c; by rewrite new_startTime, new_clock).
  assert (Hend : WorkflowContext.endTime c = None).
  { unfold c, WorkflowContext.new.
    by destruct (WorkflowContextOptions.workflowId options),
                (WorkflowContextOptions.metadata options). }
  split; [unfold WorkflowContext.durationMs; by rewrite Hend|].
  split; [unfold WorkflowContext.successful, c; by rewrite new_errors|].
  split; [|split].
  - intros now. unfold WorkflowContext.durationMs. simpl. by rewrite Hstart.
  - intros first now calls. unfold WorkflowContext.durationMs. simpl.
    destruct (addErrors_rest calls (WorkflowContext.complete first c)) as (_ & -> & _).
    simpl. by rewrite Hstart.
  - reflexivity.
Qed.



(** ** Building an engine *)

Lemma addSteps_nil this : WorkflowEngine.addSteps [] this = this.
Proof. destruct this. unfold WorkflowEngine.addSteps. simpl. by rewrite app_nil_r. Qed.

Lemma addObservers_nil this : WorkflowEngine.addObservers [] this = this.
Proof. destruct this. unfold WorkflowEngine.addObservers. simpl. by rewrite app_nil_r. Qed.

Lemma addSteps_addSteps l1 l2 this :
  WorkflowEngine.addSteps l2 (WorkflowEngine.addSteps l1 this) =
  WorkflowEngine.addSteps (l1 ++ l2) this.
Proof. unfold WorkflowEngine.addSteps. simpl. by rewrite app_assoc. Qed.

Lemma addObservers_addObservers l1 l2 this :
  WorkflowEngine.addObservers l2 (WorkflowEngine.addObservers l1 this) =
  WorkflowEngine.addObservers (l1 ++ l2) this.
Proof. unfold WorkflowEngine.addObservers. simpl. by rewrite app_assoc. Qed.

(** X11. Registration keeps order and nothing else: steps added one by
    one with [addStep] make the engine [addSteps] makes of the whole
    list, and likewise for observers; successive [addSteps] add up to the
    concatenation; adding the empty list changes nothing; adding steps
    and adding observers do not interfere, in either order; and the
    options, [continueOnError] with them, are not touched. *)
Theorem registration_keeps_order steps steps' observers this :
  foldl (fun engine step => WorkflowEngine.addStep step engine) this steps =
    WorkflowEngine.addSteps steps this /\
  foldl (fun engine o => WorkflowEngine.addObserver o engine) this observers =
    WorkflowEngine.addObservers observers this /\
  WorkflowEngine.addSteps steps' (WorkflowEngine.addSteps steps this) =
    WorkflowEngine.addSteps (steps ++ steps') this /\
  WorkflowEngine.addSteps [] this = this /\
  WorkflowEngine.addObservers [] this = this /\
  WorkflowEngine.addObservers observers (WorkflowEngine.addSteps steps this) =
    WorkflowEngine.addSteps steps (WorkflowEngine.addObservers observers this) /\
  WorkflowEngine.steps
    (WorkflowEngine.addObservers observers (WorkflowEngine.addSteps steps this)) =
    WorkflowEngine.steps this ++ steps /\
  WorkflowEngine.observers
    (WorkflowEngine.addObservers observers (WorkflowEngine.addSteps steps this)) =
    WorkflowEngine.observers this ++ observers /\
  WorkflowEngine.continueOnError
    (WorkflowEngine.addObservers observers (WorkflowEngine.addSteps steps this)) =
    WorkflowEngine.continueOnError this.
Proof.
  split; [|split; [|split; [|split; [|split]]]].
  - revert this. induction steps as [|step steps IH]; intros this; simpl.
    + by rewrite addSteps_nil.
    + rewrite IH. unfold WorkflowEngine.addStep.
      by rewrite addSteps_addSteps.
  - revert this. induction observers as [|o observers IH]; intros this; simpl.
    + by rewrite addObservers_nil.
    + rewrite IH. unfold WorkflowEngine.addObserver.
      by rewrite addObservers_addObservers.
  - apply addSteps_addSteps.
  - apply addSteps_nil.
  - apply addObservers_nil.
  - done.
Qed.

(** X12. The factory is the constructor followed by the two bulk
    registrations: whether the step list, or the observer list, is
    absent, empty or not, [createWorkflow] makes the engine that
    [new WorkflowEngine(options).addSteps(steps).addObservers(observers)]
    is, with exactly the given steps and observers, in their order. *)
Theorem createWorkflow_is_construct_then_register options steps observers :
  WorkflowFactory.createWorkflow options steps observers =
    WorkflowEngine.addObservers (default [] observers)
      (WorkflowEngine.addSteps (default [] steps) (WorkflowEngine.new options)) /\
  WorkflowEngine.steps (WorkflowFactory.createWorkflow options steps observers) =
    default [] steps /\
  WorkflowEngine.observers (WorkflowFactory.createWorkflow options steps observers) =
    default [] observers /\
  WorkflowEngine.continueOnError (WorkflowFactory.createWorkflow options steps observers) =
    default false (WorkflowEngineOptions.continueOnError options).
Proof.
  assert (H : WorkflowFactory.createWorkflow options steps observers =
    WorkflowEngine.addObservers (default [] observers)
      (WorkflowEngine.addSteps (default [] steps) (WorkflowEngine.new options))).
  { unfold WorkflowFactory.createWorkflow.
    destruct steps as [[|step steps]|], observers as [[|o observers]|]; reflexivity. }
  rewrite H. by repeat split.
Qed.

(** ** Only registered steps are heard of *)

Lemma stepOf_iteration this step s ev :
  ev ∈ trace (snd (WorkflowEngine.iteration this step s)) ->
  ev ∈ trace s \/ stepOf ev = Some (WorkflowStep.name step).
Proof.
  destruct (iteration_cases this step s)
    as [[H _]|[(e & H & Hc & _)|(e & H & Hc & _)]].
  - rewrite (trace_iteration_normal _ _ _ H).
    intros [Hev|[Hev|[Hev|Hev]%elem_of_app]%elem_of_app]%elem_of_app; [by left|..];
      right.
    + by apply stepOf_fired in Hev.
    + by apply list_elem_of_singleton in Hev as ->.
    + by apply stepOf_fired in Hev.
  - rewrite (trace_iteration_throw _ _ _ _ H Hc).
    intros [Hev|[Hev|[Hev|Hev]%elem_of_app]%elem_of_app]%elem_of_app; [by left|..];
      right.
    + by apply stepOf_fired in Hev.
    + by apply list_elem_of_singleton in Hev as ->.
    + by apply stepOf_fired in Hev.
  - rewrite (trace_iteration_abort _ _ _ _ H Hc). unfold cut.
    intros [Hev|[Hev|Hev]%elem_of_app]%elem_of_app; [by left|..]; right.
    + by apply stepOf_fired in Hev.
    + by apply list_elem_of_singleton in Hev as ->.
Qed.

Lemma stepOf_loop this steps : forall s ev,
  ev ∈ trace (snd (WorkflowEngine.loop this steps s)) ->
  ev ∈ trace s \/
  exists step, step ∈ steps /\ stepOf ev = Some (WorkflowStep.name step).
Proof.
  induction steps as [|step rest IH]; intros s ev; [by left|].
  rewrite loop_cons.
  assert (Hhere : ev ∈ trace (snd (WorkflowEngine.iteration this step s)) ->
            ev ∈ trace s \/
            exists st, st ∈ step :: rest /\ stepOf ev = Some (WorkflowStep.name st)).
  { intros [?|?]%stepOf_iteration; [by left|]. right. exists step. split; [left|done]. }
  destruct (fst (WorkflowEngine.iteration this step s)) as [[|]|e]; cbn [snd]; [done| |done].
  intros [Hev|(st & Hst & Hname)]%IH; [by apply Hhere|].
  right. exists st. split; [by right | exact Hname].
Qed.

(** X14. Whatever a run notifies or executes is about the workflow as a
    whole or about a step registered with the engine, under that step's
    name: the children of a branching step, or any step another step
    calls, are never announced to observers. *)
Theorem only_registered_steps_are_announced this input w ev :
  ev ∈ trace (snd (WorkflowEngine.execute this input w)) ->
  stepOf ev = None \/
  exists step, step ∈ WorkflowEngine.steps this /\
               stepOf ev = Some (WorkflowStep.name step).
Proof.
  rewrite execute_unfold.
  assert (Hloop : ev ∈ trace (snd (WorkflowEngine.loop this (WorkflowEngine.steps this)
                                     (started this input w))) ->
            stepOf ev = None \/
            exists step, step ∈ WorkflowEngine.steps this /\
                         stepOf ev = Some (WorkflowStep.name step)).
  { intros [Hev|Hev]%stepOf_loop; [|by right].
    left. rewrite trace_started in Hev. by apply stepOf_fired in Hev. }
  destruct (WorkflowEngine.loop this _ _) as [[u|e] s']; cbn [conclude snd] in *; [|done].
  rewrite trace_finished. intros [Hev|Hev]%elem_of_app; [by apply Hloop|].
  left. by apply stepOf_fired in Hev.
Qed.

Lemma only_registered_steps_are_announced_witness :
  Notified 1 (StepError "branch" (VError "declined")) ∈
    trace (snd (WorkflowEngine.execute
                  (WorkflowEngine.addObservers [Sample.faulty; Sample.listener]
                     Sample.branching)
                  VUndefined Sample.initial)) /\
  exists step,
    step ∈ [Sample.branch] /\ Some "branch" = Some (WorkflowStep.name step).
Proof.
  assert (Hin : Notified 1 (StepError "branch" (VError "declined")) ∈
    trace (snd (WorkflowEngine.execute
                  (WorkflowEngine.addObservers [Sample.faulty; Sample.listener]
                     Sample.branching)
                  VUndefined Sample.initial))).
  { vm_compute. repeat first [apply list_elem_of_here | apply list_elem_of_further]. }
  split; [exact Hin|].
  destruct (only_registered_steps_are_announced _ _ _ _ Hin) as [Hnone|Hsome];
    [discriminate | exact Hsome].
Defined.

(** ** A run returns unless a failure has no message *)






(** ** The heap *)

Lemma get_set_prop h l k v l' k' :
  get_prop (set_prop h l k v) l' k' =
  if decide (l = l' /\ k = k') then v else get_prop h l' k'.
Proof.
  unfold get_prop, set_prop. destruct (decide (l = l')) as [->|Hl].
  - rewrite lookup_insert_eq. simpl. destruct (decide (k = k')) as [->|Hk].
    + rewrite lookup_insert_eq. by rewrite decide_True.
    + rewrite lookup_insert_ne by done. rewrite decide_False by (intros [_ ?]; done).
      destruct (h !! l'); simpl; [done|]. by rewrite lookup_empty.
  - rewrite lookup_insert_ne by done. by rewrite decide_False by (intros [? _]; done).
Qed.

Lemma get_set_prop_eq h l k v : get_prop (set_prop h l k v) l k = v.
Proof. rewrite get_set_prop. by rewrite decide_True. Qed.

Lemma get_set_prop_ne h l k v l' k' :
  l <> l' \/ k <> k' -> get_prop (set_prop h l k v) l' k' = get_prop h l' k'.
Proof.
  intros H. rewrite get_set_prop. rewrite decide_False; [done|].
  intros [? ?]. by destruct H.
Qed.

Lemma dom_set_prop h l k v : dom (set_prop h l k v) = {[l]} ∪ dom h.
Proof. unfold set_prop. apply dom_insert_L. Qed.

Lemma get_insert_eq (h : Heap) l o k :
  get_prop (<[l := o]> h) l k = default VUndefined (o !! k).
Proof. unfold get_prop. by rewrite lookup_insert_eq. Qed.

Lemma get_insert_ne (h : Heap) l o l' k :
  l <> l' -> get_prop (<[l := o]> h) l' k = get_prop h l' k.
Proof. intros H. unfold get_prop. by rewrite lookup_insert_ne. Qed.

(** An assignment under a key other than ["__proto__"] makes, or
    updates, a property of the object's own. *)
Lemma assign_number_ref h l k n :
  k <> "__proto__" ->
  assign_number h (VRef l) k n = Normal (set_prop h l k (VNumber n)).
Proof. intros H. simpl. by rewrite bool_decide_false. Qed.

Lemma world_eta e : {| ctx := ctx e; world := set_heap (heap (world e)) (world e) |} = e.
Proof. by destruct e as [c [h cl en]]. Qed.

Lemma recordStepDuration_ctx stepName duration e :
  ctx (snd (PerformanceObserver.recordStepDuration stepName duration e)) = ctx e.
Proof.
  unfold PerformanceObserver.recordStepDuration.
  match goal with
  | |- context [assign_number ?a ?b ?c ?d] => by destruct (assign_number a b c d)
  end.
Qed.

Lemma recordStepDuration_spec stepName duration e :
  stepName <> "__proto__" ->
  metadata_in_shape e ->
  exists h',
    PerformanceObserver.recordStepDuration stepName duration e =
      (Normal tt, {| ctx := ctx e; world := set_heap h' (world e) |}) /\
    recordedDuration h' (WorkflowContext.metadata (ctx e)) stepName = VNumber duration /\
    (forall other, other <> stepName ->
       recordedDuration h' (WorkflowContext.metadata (ctx e)) other =
       recordedDuration (heap (world e)) (WorkflowContext.metadata (ctx e)) other) /\
    (forall k, k <> "performance" ->
       get_prop h' (WorkflowContext.metadata (ctx e)) k =
       get_prop (heap (world e)) (WorkflowContext.metadata (ctx e)) k) /\
    metadata_in_shape {| ctx := ctx e; world := set_heap h' (world e) |}.
Proof.
  intros Hname [Hmd Hshape].
  unfold PerformanceObserver.recordStepDuration.
  unfold metadata_in_shape. cbn [ctx world heap set_heap].
  remember (WorkflowContext.metadata (ctx e)) as md eqn:Hmdeq.
  remember (heap (world e)) as h eqn:Hheq.
  cbn zeta in Hmd, Hshape.
  destruct Hshape as [Hfalsy|(p & s & Hp & Hs & Hpmd & Hsmd & Hsp)].
  - rewrite Hfalsy. cbn [negb]. unfold alloc.
    pose proof (is_fresh (dom h)) as Hs.
    set (s := fresh (dom h)) in *. clearbody s.
    set (h1 := <[s := ∅]> h).
    pose proof (is_fresh (dom h1)) as Hp1.
    set (p := fresh (dom h1)) in *. clearbody p.
    set (h2 := <[p := {["steps" := VRef s]}]> h1).
    assert (Hdom1 : dom h1 = {[s]} ∪ dom h) by apply dom_insert_L.
    assert (Hps : p <> s).
    { intros ->. apply Hp1. rewrite Hdom1. apply elem_of_union_l, elem_of_singleton_2.
      reflexivity. }
    assert (Hp : p ∉ dom h).
    { intros Hin. apply Hp1. rewrite Hdom1. by apply elem_of_union_r. }
    assert (Hmds : md <> s) by (by intros ->).
    assert (Hmdp : md <> p) by (by intros ->).
    cbn zeta.
    assert (H2p : get_prop h2 p "steps" = VRef s).
    { unfold h2. by rewrite get_insert_eq, lookup_singleton_eq. }
    rewrite get_set_prop_eq. cbn match.
    rewrite get_set_prop_ne by (left; done).
    rewrite H2p.
    rewrite assign_number_ref by done.
    eexists. split; [reflexivity|].
    set (h3 := set_prop h2 md "performance" (VRef p)).
    assert (H3md : get_prop (set_prop h3 s stepName (VNumber duration)) md "performance" = VRef p).
    { rewrite get_set_prop_ne by (left; done). apply get_set_prop_eq. }
    assert (H3p : get_prop (set_prop h3 s stepName (VNumber duration)) p "steps" = VRef s).
    { rewrite get_set_prop_ne by (left; done). unfold h3.
      rewrite get_set_prop_ne by (left; done). unfold h2.
      by rewrite get_insert_eq, lookup_singleton_eq. }
    split; [|split; [|split]].
    + unfold recordedDuration. rewrite H3md, H3p. apply get_set_prop_eq.
    + intros other Hother. unfold recordedDuration at 1. rewrite H3md, H3p.
      rewrite get_set_prop_ne by (right; done). unfold h3.
      rewrite get_set_prop_ne by (left; done). unfold h2.
      rewrite get_insert_ne by done. unfold h1. rewrite get_insert_eq, lookup_empty.
      unfold recordedDuration.
      by destruct (get_prop h md "performance").
    + intros k Hk. rewrite get_set_prop_ne by (left; done). unfold h3.
      rewrite get_set_prop_ne by (right; done). unfold h2.
      rewrite get_insert_ne by done. unfold h1. by rewrite get_insert_ne.
    + split.
      * rewrite dom_set_prop. unfold h3. rewrite dom_set_prop.
        apply elem_of_union_r, elem_of_union_l, elem_of_singleton_2. reflexivity.
      * right. exists p, s. by rewrite H3md, H3p.
  - rewrite Hp. cbn [ToBoolean negb]. cbn zeta. rewrite Hp, Hs.
    rewrite assign_number_ref by done.
    eexists. split; [reflexivity|].
    assert (Hmd' : get_prop (set_prop h s stepName (VNumber duration)) md "performance" = VRef p).
    { by rewrite get_set_prop_ne by (left; done). }
    assert (Hp' : get_prop (set_prop h s stepName (VNumber duration)) p "steps" = VRef s).
    { by rewrite get_set_prop_ne by (left; done). }
    split; [|split; [|split]].
    + unfold recordedDuration. rewrite Hmd', Hp'. apply get_set_prop_eq.
    + intros other Hother. unfold recordedDuration. rewrite Hmd', Hp', Hp, Hs.
      by rewrite get_set_prop_ne by (right; done).
    + intros k Hk. by rewrite get_set_prop_ne by (left; done).
    + split.
      * rewrite dom_set_prop. by apply elem_of_union_r.
      * right. exists p, s. by rewrite Hmd', Hp'.
Qed.

(** ** Measuring a step *)

Lemma onStepComplete_measures this stepName e t :
  stepName <> "__proto__" ->
  PerformanceObserver.stepStartTimes this !! PerformanceObserver.key (ctx e) stepName
    = Some t ->
  t <> 0 ->
  metadata_in_shape e ->
  exists h',
    PerformanceObserver.onStepComplete this stepName e =
      (Normal tt,
       ({| PerformanceObserver.stepStartTimes :=
             delete (PerformanceObserver.key (ctx e) stepName)
                    (PerformanceObserver.stepStartTimes this) |},
        {| ctx := ctx e; world := set_heap h' (world e) |})) /\
    recordedDuration h' (WorkflowContext.metadata (ctx e)) stepName =
      VNumber (clock (world e) - t) /\
    (forall other, other <> stepName ->
       recordedDuration h' (WorkflowContext.metadata (ctx e)) other =
       recordedDuration (heap (world e)) (WorkflowContext.metadata (ctx e)) other) /\
    (forall k, k <> "performance" ->
       get_prop h' (WorkflowContext.metadata (ctx e)) k =
       get_prop (heap (world e)) (WorkflowContext.metadata (ctx e)) k) /\
    metadata_in_shape {| ctx := ctx e; world := set_heap h' (world e) |}.
Proof.
  intros Hname Hkey Ht Hshape.
  destruct (recordStepDuration_spec stepName (clock (world e) - t) e Hname Hshape)
    as (h' & Hrun & Hrest).
  exists h'. split; [|exact Hrest].
  unfold PerformanceObserver.onStepComplete. rewrite Hkey. cbn [PerformanceObserver.unset].
  destruct (Z.eqb_spec t 0) as [|_]; [done|].
  cbn [from_option id]. rewrite Hrun. reflexivity.
Qed.

(** X15. A step that was started is measured.  After [onStepStart] at an
    instant other than 0, [onStepComplete] for the same workflow id and
    step name, a name other than ["__proto__"], on a context whose
    metadata is in shape, ends normally and leaves
    [metadata.performance.steps[stepName]] equal to the time elapsed
    between the two calls, creating the performance record if there was
    none; the durations recorded for other steps and the other keys of
    the metadata are as they were; the start time is forgotten and the
    other start times are kept; and [onStepError] does the same. *)
Theorem started_step_is_measured this stepName e0 e1 :
  stepName <> "__proto__" ->
  clock (world e0) <> 0 ->
  WorkflowContext.workflowId (ctx e1) = WorkflowContext.workflowId (ctx e0) ->
  metadata_in_shape e1 ->
  let begun := fst (snd (PerformanceObserver.onStepStart this stepName e0)) in
  let key := PerformanceObserver.key (ctx e1) stepName in
  let md := WorkflowContext.metadata (ctx e1) in
  exists ended h',
    PerformanceObserver.onStepComplete begun stepName e1 =
      (Normal tt, (ended, {| ctx := ctx e1; world := set_heap h' (world e1) |})) /\
    (forall error,
       PerformanceObserver.onStepError begun stepName error e1 =
       PerformanceObserver.onStepComplete begun stepName e1) /\
    recordedDuration h' md stepName = VNumber (clock (world e1) - clock (world e0)) /\
    (forall other, other <> stepName ->
       recordedDuration h' md other = recordedDuration (heap (world e1)) md other) /\
    (forall k, k <> "performance" ->
       get_prop h' md k = get_prop (heap (world e1)) md k) /\
    metadata_in_shape {| ctx := ctx e1; world := set_heap h' (world e1) |} /\
    PerformanceObserver.stepStartTimes ended !! key = None /\
    (forall k, k <> key ->
       PerformanceObserver.stepStartTimes ended !! k =
       PerformanceObserver.stepStartTimes this !! k).
Proof.
  intros Hname Ht Hid Hshape begun key md.
  assert (Hkey : PerformanceObserver.stepStartTimes begun !! key = Some (clock (world e0))).
  { unfold begun, key, PerformanceObserver.key. simpl.
    unfold PerformanceObserver.key. rewrite Hid. apply lookup_insert_eq. }
  destruct (onStepComplete_measures begun stepName e1 _ Hname Hkey Ht Hshape)
    as (h' & Hrun & Hd & Hothers & Hkeys & Hshape').
  eexists _, h'. split; [exact Hrun|].
  split; [reflexivity|]. split; [exact Hd|]. split; [exact Hothers|].
  split; [exact Hkeys|]. split; [exact Hshape'|].
  cbn [PerformanceObserver.stepStartTimes]. fold key.
  split; [apply lookup_delete_eq|].
  intros k Hk. rewrite lookup_delete_ne by done.
  unfold begun. simpl. rewrite lookup_insert_ne; [done|].
  unfold key, PerformanceObserver.key in Hk. unfold PerformanceObserver.key.
  by rewrite <- Hid.
Qed.

Lemma sample_environment_in_shape ms : metadata_in_shape (Sample.later ms Sample.environment).
Proof.
  split.
  - apply elem_of_dom. eexists. reflexivity.
  - left. reflexivity.
Defined.

Lemma started_step_is_measured_witness :
  exists ended h',
    PerformanceObserver.onStepComplete
      (fst (snd (PerformanceObserver.onStepStart PerformanceObserver.new "A"
                   Sample.environment)))
      "A" (Sample.later 250 Sample.environment) =
      (Normal tt,
       (ended,
        {| ctx := ctx (Sample.later 250 Sample.environment);
           world := set_heap h' (world (Sample.later 250 Sample.environment)) |})) /\
    recordedDuration h' (WorkflowContext.metadata (ctx Sample.environment)) "A" =
      VNumber 250.
Proof.
  destruct (started_step_is_measured PerformanceObserver.new "A" Sample.environment
              (Sample.later 250 Sample.environment))
    as (ended & h' & Hrun & _ & Hd & _).
  - discriminate.
  - discriminate.
  - reflexivity.
  - apply sample_environment_in_shape.
  - exists ended, h'. split; [exact Hrun | exact Hd].
Defined.

(** X16. A step is measured once: after an [onStepComplete] that found a
    start time and recorded the duration, a further [onStepComplete] or
    [onStepError] for the same workflow id and step name, in whatever
    environment, changes neither the observer nor the environment. *)
Theorem step_is_measured_once this stepName e ended e' :
  PerformanceObserver.unset
    (PerformanceObserver.stepStartTimes this !! PerformanceObserver.key (ctx e) stepName)
    = false ->
  PerformanceObserver.onStepComplete this stepName e = (Normal tt, (ended, e')) ->
  forall again,
    WorkflowContext.workflowId (ctx again) = WorkflowContext.workflowId (ctx e) ->
    PerformanceObserver.onStepComplete ended stepName again = (Normal tt, (ended, again)) /\
    forall error,
      PerformanceObserver.onStepError ended stepName error again =
      (Normal tt, (ended, again)).
Proof.
  intros Hset Hrun again Hid.
  assert (Hgone : PerformanceObserver.stepStartTimes ended
                    !! PerformanceObserver.key (ctx again) stepName = None).
  { unfold PerformanceObserver.onStepComplete in Hrun. rewrite Hset in Hrun.
    pose proof (recordStepDuration_ctx stepName
                  (clock (world e) -
                   default 0 (PerformanceObserver.stepStartTimes this
                                !! PerformanceObserver.key (ctx e) stepName)) e) as Hctx.
    destruct (PerformanceObserver.recordStepDuration _ _ _) as [[u|err] e1] eqn:Hrec;
      [|discriminate].
    injection Hrun as <- <-. simpl in *.
    unfold PerformanceObserver.key. rewrite Hctx, Hid. apply lookup_delete_eq. }
  unfold PerformanceObserver.onStepError, PerformanceObserver.onStepComplete.
  rewrite Hgone. by split.
Qed.

Lemma step_is_measured_once_witness :
  let begun := fst (snd (PerformanceObserver.onStepStart PerformanceObserver.new "A"
                           Sample.environment)) in
  let run := PerformanceObserver.onStepComplete begun "A"
               (Sample.later 250 Sample.environment) in
  PerformanceObserver.onStepComplete (fst (snd run)) "A"
    (Sample.later 300 (snd (snd run))) =
  (Normal tt, (fst (snd run), Sample.later 300 (snd (snd run)))).
Proof.
  intros begun run.
  apply (step_is_measured_once begun "A" (Sample.later 250 Sample.environment)
           (fst (snd run)) (snd (snd run))).
  - reflexivity.
  - reflexivity.
  - reflexivity.
Defined.

(** X17. A start recorded at instant 0 is taken for no start at all: the
    guard [!startTime] cannot tell 0 from [undefined], so the step is
    never measured, whenever it completes, and its start time stays in
    the observer. *)
Theorem start_at_instant_zero_is_lost this stepName e0 :
  clock (world e0) = 0 ->
  let begun := fst (snd (PerformanceObserver.onStepStart this stepName e0)) in
  PerformanceObserver.stepStartTimes begun !! PerformanceObserver.key (ctx e0) stepName
    = Some 0 /\
  forall e1,
    WorkflowContext.workflowId (ctx e1) = WorkflowContext.workflowId (ctx e0) ->
    PerformanceObserver.onStepComplete begun stepName e1 = (Normal tt, (begun, e1)) /\
    forall error,
      PerformanceObserver.onStepError begun stepName error e1 = (Normal tt, (begun, e1)).
Proof.
  intros Hzero begun.
  assert (Hkey : PerformanceObserver.stepStartTimes begun
                   !! PerformanceObserver.key (ctx e0) stepName = Some 0).
  { unfold begun. simpl. rewrite Hzero. apply lookup_insert_eq. }
  split; [exact Hkey|]. intros e1 Hid.
  unfold PerformanceObserver.onStepError, PerformanceObserver.onStepComplete.
  unfold PerformanceObserver.key in *. rewrite Hid, Hkey. by split.
Qed.

Lemma start_at_instant_zero_is_lost_witness :
  let epoch := Sample.later (-1000) Sample.environment in
  let begun := fst (snd (PerformanceObserver.onStepStart PerformanceObserver.new "A" epoch)) in
  clock (world epoch) = 0 /\
  PerformanceObserver.onStepComplete begun "A" (Sample.later 250 epoch) =
  (Normal tt, (begun, Sample.later 250 epoch)).
Proof.
  intros epoch begun. split; [reflexivity|].
  apply (proj2 (start_at_instant_zero_is_lost PerformanceObserver.new "A" epoch eq_refl)).
  reflexivity.
Defined.

(** X18. When the metadata holds something else than a record where the
    performance figures go, [onStepComplete] for a started step throws a
    [TypeError] and changes nothing: no duration is written and the
    start time stays.  That is so, whatever the step name, when
    [performance] is a truthy value that is no object, or an object
    whose [steps] is [undefined] or [null]; and, for a step name other
    than ["__proto__"], when [steps] is any value that is no object. *)
Theorem cluttered_metadata_makes_onStepComplete_throw this stepName e t :
  PerformanceObserver.stepStartTimes this !! PerformanceObserver.key (ctx e) stepName
    = Some t ->
  t <> 0 ->
  let v := get_prop (heap (world e)) (WorkflowContext.metadata (ctx e)) "performance" in
  ToBoolean v = true ->
  (forall p, v = VRef p ->
     let target := get_prop (heap (world e)) p "steps" in
     (forall s, target <> VRef s) /\
     (stepName = "__proto__" -> target = VUndefined \/ target = VNull)) ->
  PerformanceObserver.onStepComplete this stepName e = (Throw TypeError, (this, e)) /\
  forall error,
    PerformanceObserver.onStepError this stepName error e = (Throw TypeError, (this, e)).
Proof.
  intros Hkey Ht v Htruthy Hbad.
  assert (Hrec : PerformanceObserver.recordStepDuration stepName (clock (world e) - t) e =
                 (Throw TypeError, e)).
  { unfold PerformanceObserver.recordStepDuration. fold v. rewrite Htruthy.
    cbn [negb]. cbn zeta. fold v. rewrite world_eta.
    destruct v as [| | | | |p] eqn:Hv; try reflexivity.
    destruct (Hbad p eq_refl) as [Hs Hproto]. cbn zeta in Hs, Hproto.
    destruct (get_prop (heap (world e)) p "steps") as [| | | | |s]; try reflexivity.
    4: by destruct (Hs s).
    all: simpl; destruct (decide (stepName = "__proto__")) as [Heq|Hne];
      [destruct (Hproto Heq); discriminate | by rewrite bool_decide_false]. }
  unfold PerformanceObserver.onStepError, PerformanceObserver.onStepComplete.
  rewrite Hkey. cbn [PerformanceObserver.unset].
  destruct (Z.eqb_spec t 0) as [|_]; [done|].
  cbn [from_option id]. by rewrite Hrec.
Qed.

Lemma cluttered_metadata_makes_onStepComplete_throw_witness :
  let begun := fst (snd (PerformanceObserver.onStepStart PerformanceObserver.new "__proto__"
                           Demo.cluttered)) in
  get_prop (heap (world Demo.cluttered))
           (WorkflowContext.metadata (ctx Demo.cluttered)) "performance" = VNumber 5 /\
  PerformanceObserver.onStepComplete begun "__proto__" Demo.cluttered =
    (Throw TypeError, (begun, Demo.cluttered)).
Proof.
  intros begun. split; [reflexivity|].
  apply (cluttered_metadata_makes_onStepComplete_throw begun "__proto__" Demo.cluttered
           1000).
  - reflexivity.
  - discriminate.
  - reflexivity.
  - intros p Hp. discriminate Hp.
Defined.

(** X23. A step named ["__proto__"] is never measured.  On a context
    that has its performance record, whose [steps] is an object without
    a ["__proto__"] property of its own, or a primitive other than
    [undefined] and [null], [onStepComplete] for such a step that was
    started ends normally: the assignment goes to the setter of
    [Object.prototype], which ignores a number.  Nothing is written, the
    environment is as it was, and the start time is forgotten all the
    same. *)
Theorem step_named_proto_is_never_measured this e t p :
  PerformanceObserver.stepStartTimes this !! PerformanceObserver.key (ctx e) "__proto__"
    = Some t ->
  t <> 0 ->
  get_prop (heap (world e)) (WorkflowContext.metadata (ctx e)) "performance" = VRef p ->
  match get_prop (heap (world e)) p "steps" with
  | VRef s => has_own (heap (world e)) s "__proto__" = false
  | VUndefined | VNull => False
  | VBool _ | VNumber _ | VString _ => True
  end ->
  PerformanceObserver.onStepComplete this "__proto__" e =
    (Normal tt,
     ({| PerformanceObserver.stepStartTimes :=
           delete (PerformanceObserver.key (ctx e) "__proto__")
                  (PerformanceObserver.stepStartTimes this) |},
      e)) /\
  forall error,
    PerformanceObserver.onStepError this "__proto__" error e =
    PerformanceObserver.onStepComplete this "__proto__" e.
Proof.
  intros Hkey Ht Hp Hsteps.
  assert (Hrec : PerformanceObserver.recordStepDuration "__proto__"
                   (clock (world e) - t) e = (Normal tt, e)).
  { unfold PerformanceObserver.recordStepDuration. rewrite Hp.
    cbn [ToBoolean negb]. cbn zeta. rewrite Hp.
    destruct (get_prop (heap (world e)) p "steps") as [| |b|n|str|s]; try done.
    all: simpl; rewrite ?Hsteps; simpl; by rewrite !world_eta. }
  split; [|reflexivity].
  unfold PerformanceObserver.onStepComplete. rewrite Hkey. cbn [PerformanceObserver.unset].
  destruct (Z.eqb_spec t 0) as [|_]; [done|].
  cbn [from_option id]. by rewrite Hrec.
Qed.

Lemma step_named_proto_is_never_measured_witness :
  let e0 := Sample.environment in
  let measured :=
    snd (snd (PerformanceObserver.onStepComplete
                (perform PerformanceObserver.new (CallStepStart "A" e0))
                "A" (Sample.later 250 e0))) in
  let begun := perform PerformanceObserver.new (CallStepStart "__proto__" measured) in
  let e1 := Sample.later 100 measured in
  recordedDuration (heap (world measured)) (WorkflowContext.metadata (ctx e0)) "A" =
    VNumber 250 /\
  PerformanceObserver.stepStartTimes begun !! "run-1:__proto__" = Some 1250 /\
  PerformanceObserver.onStepComplete begun "__proto__" e1 =
    (Normal tt, ({| PerformanceObserver.stepStartTimes := ∅ |}, e1)).
Proof.
  intros e0 measured begun e1. split; [reflexivity|]. split; [reflexivity|].
  etrans.
  - apply (proj1 (step_named_proto_is_never_measured begun e1 1250 2%nat
                    eq_refl ltac:(discriminate) eq_refl eq_refl)).
  - reflexivity.
Defined.

(** ** Runs of an engine without a metadata option *)

(** X19. When the engine options give no [metadata], the context of each
    run gets a metadata object of its own: it is none of the objects in
    existence when the run starts (so not the metadata object of an
    earlier run's context, and nothing an earlier run wrote can be read
    from it), it is empty, and the objects that existed are not
    touched. *)
Theorem unseeded_runs_get_their_own_metadata this input input' w :
  WorkflowEngineOptions.metadata (WorkflowEngine.options this) = None ->
  let first := snd (WorkflowEngine.execute this input w) in
  let before := heap (world (env first)) in
  let second := WorkflowEngine.start this input' (world (env first)) in
  let md := WorkflowContext.metadata (ctx (env second)) in
  (md ∉ dom before) /\
  (WorkflowContext.metadata (ctx (env first)) ∈ dom before ->
   md <> WorkflowContext.metadata (ctx (env first))) /\
  (forall k, get_prop (heap (world (env second))) md k = VUndefined) /\
  (forall l, l ∈ dom before -> heap (world (env second)) !! l = before !! l).
Proof.
  intros Hnone first before second md.
  destruct (unseeded_metadata_is_fresh (WorkflowEngine.contextOptions this input')
              (world (env first)) Hnone) as (Hfresh & Hempty & Hsame).
  unfold md, second. rewrite start_env. cbn [ctx world].
  split; [exact Hfresh|]. split; [|split].
  - intros Hin Heq. apply Hfresh. by rewrite Heq.
  - intros k. unfold get_prop. rewrite Hempty. simpl. by rewrite lookup_empty.
  - exact Hsame.
Qed.

Lemma unseeded_runs_get_their_own_metadata_witness :
  let this := WorkflowEngine.addStep (BasicStep.new "remember" Sample.remember)
                (WorkflowEngine.new (Sample.options false None)) in
  let first := snd (WorkflowEngine.execute this VUndefined Sample.initial) in
  let second := WorkflowEngine.start this VUndefined (world (env first)) in
  get_prop (heap (world (env first)))
           (WorkflowContext.metadata (ctx (env first))) "seen" = VBool true /\
  get_prop (heap (world (env second)))
           (WorkflowContext.metadata (ctx (env second))) "seen" = VUndefined.
Proof.
  intros this first second. split; [reflexivity|].
  apply (unseeded_runs_get_their_own_metadata this VUndefined VUndefined Sample.initial).
  reflexivity.
Defined.
